(** * Order cache service (main.go): model and verified properties

    The service keeps an in-memory cache of order messages.  Messages
    arrive on a NATS channel, are decoded, stored in the cache and
    inserted into a PostgreSQL table; at start the cache is rebuilt from
    that table; an HTTP handler serves cache lookups by identifier.

    The model follows main.go function by function.  The Go map is a
    [gmap], the table is a list of rows, I/O outcomes (does the query or
    the insert fail) are explicit arguments, and the two goroutines of
    the process are the two program counters of a transition system. *)

From Stdlib Require Import ZArith Lia List Permutation Ascii String.
From stdpp Require Import base option gmap strings list fin_maps.

Local Open Scope string_scope.
Local Open Scope Z_scope.

(** ** strconv: decimal integers

    [int] is 64 bits wide on the platforms the service runs on. *)

Module strconv.

Definition intSize : Z := 64.
Definition maxInt : Z := 2 ^ (intSize - 1) - 1.
Definition minInt : Z := - 2 ^ (intSize - 1).

Definition is_digit (ch : ascii) : bool :=
  let n := Z.of_nat (nat_of_ascii ch) in (48 <=? n) && (n <=? 57).

Definition digit_val (ch : ascii) : Z := Z.of_nat (nat_of_ascii ch) - 48.

Definition digit_char (d : Z) : ascii := ascii_of_nat (Z.to_nat (48 + d)).

(** The digit loop of [Atoi] and [ParseUint]: [n = n*10 + int(ch)], a
    syntax error at the first byte that is not a digit. *)
Fixpoint parse_digits (s : string) (n : Z) : option Z :=
  match s with
  | EmptyString => Some n
  | String ch s' =>
      if is_digit ch then parse_digits s' (n * 10 + digit_val ch) else None
  end.

Definition is_sign (ch : ascii) : bool :=
  (Ascii.eqb ch "-"%char) || (Ascii.eqb ch "+"%char).

(** [strconv.Atoi]: an optional sign, at least one digit, only digits,
    and a value that fits [int]; [None] stands for a non-nil error
    (syntax or range). *)
Definition Atoi (s : string) : option Z :=
  match s with
  | EmptyString => None
  | String s0 rest =>
      let body := if is_sign s0 then rest else s in
      match body with
      | EmptyString => None
      | _ =>
          match parse_digits body 0 with
          | None => None
          | Some n =>
              let v := if Ascii.eqb s0 "-"%char then - n else n in
              if (minInt <=? v) && (v <=? maxInt) then Some v else None
          end
      end
  end.

(** The digit loop of [formatBits] in base 10: the digits of [u] are
    written in front of [acc], least significant first. *)
Fixpoint formatBits (fuel : nat) (u : Z) (acc : string) : string :=
  match fuel with
  | O => acc
  | S fuel' =>
      if u <? 10 then String (digit_char u) acc
      else formatBits fuel' (u / 10) (String (digit_char (u mod 10)) acc)
  end.

(** [strconv.Itoa]: the decimal form, with a minus sign when negative. *)
Definition Itoa (i : Z) : string :=
  let u := Z.abs i in
  let digits := formatBits (S (Z.to_nat (Z.log2 u))) u EmptyString in
  if i <? 0 then String "-"%char digits else digits.

End strconv.

(** ** The message model (types of main.go) *)

(** [time.Time], as the instant and the zone offset it carries. *)
Record Time := mkTime { unixSec : Z; nsec : Z; zoneOffset : Z }.

Record DeliveryInfo := mkDeliveryInfo {
  Name : string;
  Phone : string;
  Zip : string;
  City : string;
  Address : string;
  Region : string;
  Email : string
}.

Record PaymentInfo := mkPaymentInfo {
  Transaction : string;
  RequestID : string;
  Currency : string;
  Provider : string;
  Amount : Z;
  PaymentDT : Z;
  Bank : string;
  DeliveryCost : Z;
  GoodsTotal : Z;
  CustomFee : Z
}.

(** Field names that another struct already uses carry the struct's name. *)
Record Item := mkItem {
  ChrtID : Z;
  ItemTrackNumber : string;
  Price : Z;
  RID : string;
  ItemName : string;
  Sale : Z;
  ItemSize : string;
  TotalPrice : Z;
  NmID : Z;
  Brand : string;
  Status : Z
}.

Record Message := mkMessage {
  OrderUID : string;
  TrackNumber : string;
  Entry : string;
  Delivery : DeliveryInfo;
  Payment : PaymentInfo;
  Items : list Item;
  Locale : string;
  InternalSig : string;
  CustomerID : string;
  DeliveryService : string;
  ShardKey : string;
  SMID : Z;
  DateCreated : Time;
  OofShard : string
}.

(** The zero value of [Message] ([var message Message]). *)
Definition zeroTime : Time := mkTime (-62135596800) 0 0.
Definition zeroDelivery : DeliveryInfo := mkDeliveryInfo "" "" "" "" "" "" "".
Definition zeroPayment : PaymentInfo := mkPaymentInfo "" "" "" "" 0 0 "" 0 0 0.
Definition zeroMessage : Message :=
  mkMessage "" "" "" zeroDelivery zeroPayment [] "" "" "" "" "" 0 zeroTime "".

Definition withOrderUID (uid : string) (m : Message) : Message :=
  mkMessage uid (TrackNumber m) (Entry m) (Delivery m) (Payment m) (Items m)
    (Locale m) (InternalSig m) (CustomerID m) (DeliveryService m)
    (ShardKey m) (SMID m) (DateCreated m) (OofShard m).

(** ** The cache *)

(** [Cache.data]; the embedded lock makes each access below one atomic
    step and has no field of its own. *)
Record Cache := mkCache { data : gmap string Message }.

(** [&Cache{data: make(map[string]Message)}] *)
Definition newCache : Cache := mkCache ∅.

(** [cache.Lock(); cache.data[key] = message; cache.Unlock()] *)
Definition store (cache : Cache) (key : string) (message : Message) : Cache :=
  mkCache (<[key := message]> (data cache)).

(** [cache.RLock(); message, ok := cache.data[key]; cache.RUnlock()] *)
Definition get (cache : Cache) (key : string) : option Message :=
  data cache !! key.

(** The write of the ingestion callback: the key is the message's own
    [OrderUID]. *)
Definition put (cache : Cache) (message : Message) : Cache :=
  store cache (OrderUID message) message.

(** ** The table [messages] and errors *)

(** A row of [messages (id, data)], both columns as the text the driver
    hands to [Scan]. *)
Record Row := mkRow { row_id : string; row_data : string }.

Inductive error :=
| ErrQuery
| ErrScan (column : string)
| ErrUnmarshal (input : string)
| ErrMarshal
| ErrExec.

(** [rows.Scan(&id, ...)] with [var id int]: database/sql converts the
    column text with [strconv.ParseInt(s, 10, 64)], which accepts what
    [Atoi] accepts. *)
Definition scanInt (column : string) : option Z := strconv.Atoi column.

(** ** HTTP responses *)

Record Response := mkResponse {
  StatusCode : Z;
  ContentType : string;
  Body : string
}.

Definition StatusOK : Z := 200.
Definition StatusBadRequest : Z := 400.
Definition StatusNotFound : Z := 404.
Definition StatusInternalServerError : Z := 500.

Definition newline : string := String (ascii_of_nat 10) EmptyString.

(** [http.Error(w, msg, code)] *)
Definition http_Error (msg : string) (code : Z) : Response :=
  mkResponse code "text/plain; charset=utf-8" (msg ++ newline).

(** [r.URL.Query()]: the parameters in the order of the query string;
    [Get] gives the first value of a key, or the empty string. *)
Record Request := mkRequest { URLQuery : list (string * string) }.

Fixpoint Get (values : list (string * string)) (key : string) : string :=
  match values with
  | [] => ""
  | (k, v) :: rest => if String.eqb k key then v else Get rest key
  end.

(** ** The codec

    [encoding/json] is a library of its own: the service is modelled over
    any decoder and encoder. *)
Class Codec := {
  (** [json.Unmarshal(data, &message)] into a fresh [message]: the decoded
      message, or [None] for a non-nil error. *)
  unmarshal : string -> option Message;
  (** [json.Marshal(message)]: the encoding, or [None] for a non-nil
      error. *)
  marshal : Message -> option string
}.

(** ** A sample codec

    To run the model, the sample codec is [encoding/json] restricted to
    two shapes of payload: the empty object, and an object with the
    single key [order_uid] whose value is plain text (printable ASCII
    with nothing for the decoder or the encoder to escape).  Every other
    payload is rejected, and only messages decoded from these are
    encoded. *)

Module sample.

Definition quote : string := String (ascii_of_nat 34) EmptyString.

Definition plain_char (ch : ascii) : bool :=
  let n := nat_of_ascii ch in
  (32 <=? n)%nat && (n <=? 126)%nat &&
  negb (n =? 34)%nat && negb (n =? 92)%nat &&
  negb (n =? 60)%nat && negb (n =? 62)%nat && negb (n =? 38)%nat.

Fixpoint plain (s : string) : bool :=
  match s with
  | EmptyString => true
  | String ch s' => plain_char ch && plain s'
  end.

Fixpoint strip_prefix (p s : string) : option string :=
  match p, s with
  | EmptyString, _ => Some s
  | String a p', String b s' =>
      if Ascii.eqb a b then strip_prefix p' s' else None
  | String _ _, EmptyString => None
  end.

(** The text up to the closing quote, and what follows that quote. *)
Fixpoint string_body (s : string) : option (string * string) :=
  match s with
  | EmptyString => None
  | String ch s' =>
      if Ascii.eqb ch (ascii_of_nat 34) then Some (EmptyString, s')
      else if plain_char ch then
        match string_body s' with
        | Some (body, rest) => Some (String ch body, rest)
        | None => None
        end
      else None
  end.

Definition decode (input : string) : option Message :=
  if String.eqb input "{}" then Some zeroMessage
  else
    match strip_prefix ("{" ++ quote ++ "order_uid" ++ quote ++ ":" ++ quote) input with
    | None => None
    | Some s =>
        match string_body s with
        | Some (uid, rest) =>
            if String.eqb rest "}" then Some (withOrderUID uid zeroMessage)
            else None
        | None => None
        end
    end.

Definition key (name : string) : string := quote ++ name ++ quote ++ ":".
Definition text (s : string) : string := quote ++ s ++ quote.

(** What [json.Marshal] writes for a zero message with the given
    [order_uid]. *)
Definition render (uid : string) : string :=
  "{" ++ key "order_uid" ++ text uid ++ "," ++
  key "track_number" ++ text "" ++ "," ++
  key "entry" ++ text "" ++ "," ++
  key "delivery" ++ "{" ++
    key "name" ++ text "" ++ "," ++ key "phone" ++ text "" ++ "," ++
    key "zip" ++ text "" ++ "," ++ key "city" ++ text "" ++ "," ++
    key "address" ++ text "" ++ "," ++ key "region" ++ text "" ++ "," ++
    key "email" ++ text "" ++ "}," ++
  key "payment" ++ "{" ++
    key "transaction" ++ text "" ++ "," ++ key "request_id" ++ text "" ++ "," ++
    key "currency" ++ text "" ++ "," ++ key "provider" ++ text "" ++ "," ++
    key "amount" ++ "0," ++ key "payment_dt" ++ "0," ++
    key "bank" ++ text "" ++ "," ++ key "delivery_cost" ++ "0," ++
    key "goods_total" ++ "0," ++ key "custom_fee" ++ "0}," ++
  key "items" ++ "null," ++
  key "locale" ++ text "" ++ "," ++
  key "internal_signature" ++ text "" ++ "," ++
  key "customer_id" ++ text "" ++ "," ++
  key "delivery_service" ++ text "" ++ "," ++
  key "shardkey" ++ text "" ++ "," ++
  key "sm_id" ++ "0," ++
  key "date_created" ++ text "0001-01-01T00:00:00Z" ++ "," ++
  key "oof_shard" ++ text "" ++ "}".

#[global] Instance Time_eq_dec : EqDecision Time.
Proof. solve_decision. Defined.
#[global] Instance DeliveryInfo_eq_dec : EqDecision DeliveryInfo.
Proof. solve_decision. Defined.
#[global] Instance PaymentInfo_eq_dec : EqDecision PaymentInfo.
Proof. solve_decision. Defined.
#[global] Instance Item_eq_dec : EqDecision Item.
Proof. solve_decision. Defined.
#[global] Instance Message_eq_dec : EqDecision Message.
Proof. solve_decision. Defined.

Definition encode (message : Message) : option string :=
  if bool_decide (message = withOrderUID (OrderUID message) zeroMessage)
     && plain (OrderUID message)
  then Some (render (OrderUID message))
  else None.

Definition payload (uid : string) : string :=
  "{" ++ quote ++ "order_uid" ++ quote ++ ":" ++ quote ++ uid ++ quote ++ "}".

Definition codec : Codec := {| unmarshal := decode; marshal := encode |}.

End sample.

(** The sample codec, with a decoder that also reads back what the
    encoder writes (the full object of a zero message with its
    [order_uid]), as [encoding/json] does. *)
Module stored.

Definition head : string :=
  "{" ++ sample.quote ++ "order_uid" ++ sample.quote ++ ":" ++ sample.quote.

(** What [sample.render] writes after the closing quote of the
    identifier. *)
Definition tail : string :=
  match sample.strip_prefix (head ++ sample.quote) (sample.render "") with
  | Some rest => rest
  | None => ""
  end.

Definition decode (input : string) : option Message :=
  match sample.decode input with
  | Some message => Some message
  | None =>
      match sample.strip_prefix head input with
      | None => None
      | Some s =>
          match sample.string_body s with
          | Some (uid, rest) =>
              if String.eqb rest tail then Some (withOrderUID uid zeroMessage)
              else None
          | None => None
          end
      end
  end.

Definition codec : Codec := {| unmarshal := decode; marshal := sample.encode |}.

End stored.

(** The sample codec, with a third shape of payload: an [order_uid] and
    a [date_created] whose zone offset is [+24:00].  The decoder of
    [encoding/json] accepts that offset ([time.parseRFC3339] reads the
    zone hour with 24 as its upper bound); since Go 1.20 the encoder
    refuses it ("timezone hour outside of range [0,23]"). *)
Module zoned.

Definition date : string := "2021-01-01T00:00:00+24:00".

(** The instant of [date] (midnight of 2020-12-31 in UTC) and its
    offset in seconds. *)
Definition dateCreated : Time := mkTime 1609372800 0 86400.

Definition tail : string :=
  "," ++ sample.key "date_created" ++ sample.text date ++ "}".

Definition withDateCreated (t : Time) (m : Message) : Message :=
  mkMessage (OrderUID m) (TrackNumber m) (Entry m) (Delivery m) (Payment m) (Items m)
    (Locale m) (InternalSig m) (CustomerID m) (DeliveryService m)
    (ShardKey m) (SMID m) t (OofShard m).

Definition decode (input : string) : option Message :=
  match sample.decode input with
  | Some message => Some message
  | None =>
      match sample.strip_prefix stored.head input with
      | None => None
      | Some s =>
          match sample.string_body s with
          | Some (uid, rest) =>
              if String.eqb rest tail
              then Some (withDateCreated dateCreated (withOrderUID uid zeroMessage))
              else None
          | None => None
          end
      end
  end.

(** [Time.MarshalJSON]: an error when the hour of the zone offset is
    24 or more. *)
Definition encode (message : Message) : option string :=
  if 24 <=? Z.abs (zoneOffset (DateCreated message)) / 3600 then None
  else sample.encode message.

Definition payload (uid : string) : string := stored.head ++ uid ++ sample.quote ++ tail.

Definition codec : Codec := {| unmarshal := decode; marshal := encode |}.

End zoned.

(** A cache key that some request can ask for: the decimal form that
    [strconv.Itoa] gives the integer it parses to. *)
Definition canonical (key : string) : bool :=
  match strconv.Atoi key with
  | Some n => String.eqb (strconv.Itoa n) key
  | None => false
  end.

(** ** The service *)

(** The table [messages], as the list of its rows in the order in which
    a [SELECT] enumerates them.  That order is the store's: a property of
    a recovery that follows an insert is stated for every enumeration
    (every permutation) of the table. *)
Record DB := mkDB { messages : list Row }.

Definition Log := list string.

Section Service.

Context `{Codec}.

(** The loop of [restoreCacheFromDB] over the rows of the result set:
    the first row that fails to scan or to decode ends it with the
    error. *)
Fixpoint restoreRows (cache : Cache) (rows : list Row) : Cache * option error :=
  match rows with
  | [] => (cache, None)
  | row :: rest =>
      match scanInt (row_id row) with
      | None => (cache, Some (ErrScan (row_id row)))
      | Some id =>
          match unmarshal (row_data row) with
          | None => (cache, Some (ErrUnmarshal (row_data row)))
          | Some message => restoreRows (store cache (strconv.Itoa id) message) rest
          end
      end
  end.

(** What one turn of that loop makes of a row: the error it returns, or
    the cache key and the message it stores. *)
Definition readRow (row : Row) : error + (string * Message) :=
  match scanInt (row_id row) with
  | None => inl (ErrScan (row_id row))
  | Some id =>
      match unmarshal (row_data row) with
      | None => inl (ErrUnmarshal (row_data row))
      | Some message => inr (strconv.Itoa id, message)
      end
  end.

Definition loads (row : Row) : Prop := exists entry, readRow row = inr entry.

Definition rowKey (row : Row) : option string :=
  match readRow row with
  | inr (key, _) => Some key
  | inl _ => None
  end.

(** The rows that the loop stores: those before the first row that
    does not load. *)
Fixpoint loadedPrefix (rows : list Row) : list Row :=
  match rows with
  | [] => []
  | row :: rest =>
      match readRow row with
      | inr _ => row :: loadedPrefix rest
      | inl _ => []
      end
  end.

Definition storeRow (cache : Cache) (row : Row) : Cache :=
  match readRow row with
  | inr (key, message) => store cache key message
  | inl _ => cache
  end.

(** [restoreCacheFromDB(cache, db)]; [query_ok] tells whether [db.Query]
    succeeds. *)
Definition restoreCacheFromDB (cache : Cache) (db : DB) (query_ok : bool)
  : Cache * Log * option error :=
  if query_ok then
    match restoreRows cache (messages db) with
    | (cache', None) => (cache', ["Cache restored from DB"], None)
    | (cache', Some err) => (cache', [], Some err)
    end
  else (cache, [], Some ErrQuery).

(** [saveMessageToDB(message, db)]; [exec_ok] tells whether [db.Exec]
    succeeds, and a successful INSERT adds its row to the table. *)
Definition saveMessageToDB (message : Message) (db : DB) (exec_ok : bool)
  : DB * option error :=
  match marshal message with
  | None => (db, Some ErrMarshal)
  | Some data =>
      if exec_ok
      then (mkDB (messages db ++ [mkRow (OrderUID message) data])%list, None)
      else (db, Some ErrExec)
  end.

(** The first half of the subscription callback (decode, then the write
    to the cache under the lock). *)
Definition receive (cache : Cache) (msgData : string)
  : option Message * Cache * Log :=
  match unmarshal msgData with
  | None => (None, cache, ["Failed to unmarshal message:"])
  | Some message => (Some message, put cache message, [])
  end.

(** The second half of the callback: the insert, whose error is logged. *)
Definition persist (message : Message) (db : DB) (exec_ok : bool) : DB * Log :=
  match saveMessageToDB message db exec_ok with
  | (db', Some _) => (db', ["Failed to save message to DB:"])
  | (db', None) => (db', [])
  end.

(** The subscription callback of [subscribeToNATS], for one message. *)
Definition onMessage (cache : Cache) (db : DB) (msgData : string) (exec_ok : bool)
  : Cache * DB * Log :=
  match receive cache msgData with
  | (None, cache', log) => (cache', db, log)
  | (Some message, cache', log) =>
      let '(db', log') := persist message db exec_ok in
      (cache', db', (log ++ log')%list)
  end.

(** The handler returned by [getDataFromCacheHandler(cache)]. *)
Definition getDataFromCacheHandler (cache : Cache) (r : Request) : Response :=
  let idStr := Get (URLQuery r) "id" in
  match strconv.Atoi idStr with
  | None => http_Error "Invalid ID" StatusBadRequest
  | Some id =>
      match get cache (strconv.Itoa id) with
      | None => http_Error "Message not found" StatusNotFound
      | Some message =>
          match marshal message with
          | None => http_Error "Failed to marshal data" StatusInternalServerError
          | Some jsonData => mkResponse StatusOK "application/json" jsonData
          end
      end
  end.

(** ** The process: [main] and the goroutine it starts

    [main] connects to the database, starts [subscribeToNATS] with [go]
    and goes on to [http.ListenAndServe]; nothing makes one goroutine
    wait for the other.  A schedule is the list of the steps taken, each
    carrying what the environment decides (whether an I/O call succeeds,
    which request or message arrives). *)

Definition channel : string :=
  "NAVNP33RHRZHWLND5OZXIY4ZD7FSBMBP7QROEWFWFT2U3FSQ5XQTJBNS".

Inductive mainPC :=
| AtConnectToDB
| AtGo
| AtListenAndServe
| Serving.

Inductive subPC :=
| NotStarted
| AtNatsConnect
| AtRestore
| AtSubscribe
| Subscribed (inflight : option Message).

Record Process := mkProcess {
  mainAt : mainPC;
  subAt : subPC;
  p_cache : Cache;
  p_db : DB;
  p_log : Log;
  p_responses : list Response;
  exited : bool
}.

Inductive action :=
| ConnectToDB (ok : bool)
| Go
| ListenAndServe (ok : bool)
| Serve (r : Request)
| NatsConnect (ok : bool)
| Restore (query_ok : bool)
| Subscribe (ok : bool)
| Deliver (msgData : string)
| Persist (exec_ok : bool).

(** [log.Fatal]: the line is logged and the process exits. *)
Definition fatal (p : Process) (line : string) : Process :=
  mkProcess (mainAt p) (subAt p) (p_cache p) (p_db p)
    (p_log p ++ [line])%list (p_responses p) true.

Definition logLine (p : Process) (line : string) : Process :=
  mkProcess (mainAt p) (subAt p) (p_cache p) (p_db p)
    (p_log p ++ [line])%list (p_responses p) (exited p).

Definition setMain (p : Process) (pc : mainPC) : Process :=
  mkProcess pc (subAt p) (p_cache p) (p_db p) (p_log p) (p_responses p) (exited p).

(** One step of the goroutine that runs [main]. *)
Definition stepMain (p : Process) (a : action) : option Process :=
  match mainAt p, a with
  | AtConnectToDB, ConnectToDB true => Some (setMain p AtGo)
  | AtConnectToDB, ConnectToDB false => Some (fatal p "Failed to connect to DB:")
  | AtGo, Go =>
      match subAt p with
      | NotStarted =>
          Some (mkProcess AtListenAndServe AtNatsConnect (p_cache p) (p_db p)
                  (p_log p) (p_responses p) (exited p))
      | _ => None
      end
  | AtListenAndServe, ListenAndServe true =>
      Some (setMain (logLine p "Starting HTTP server on port 8080...") Serving)
  | AtListenAndServe, ListenAndServe false =>
      Some (fatal (logLine p "Starting HTTP server on port 8080...")
              "Failed to start HTTP server:")
  | Serving, ListenAndServe false => Some (fatal p "Failed to start HTTP server:")
  | Serving, Serve r =>
      Some (mkProcess Serving (subAt p) (p_cache p) (p_db p) (p_log p)
              (p_responses p ++ [getDataFromCacheHandler (p_cache p) r])%list
              (exited p))
  | _, _ => None
  end.

Definition setSub (p : Process) (pc : subPC) (cache : Cache) (db : DB) (lines : Log)
  : Process :=
  mkProcess (mainAt p) pc cache db (p_log p ++ lines)%list (p_responses p) (exited p).

(** One step of the goroutine that runs [subscribeToNATS].  The call of
    [restoreCacheFromDB] is one step (its loop takes the lock row by
    row); the callback is two, the write to the cache and the insert. *)
Definition stepSub (p : Process) (a : action) : option Process :=
  match subAt p, a with
  | AtNatsConnect, NatsConnect true => Some (setSub p AtRestore (p_cache p) (p_db p) [])
  | AtNatsConnect, NatsConnect false => Some (fatal p "nats: connect")
  | AtRestore, Restore query_ok =>
      match restoreCacheFromDB (p_cache p) (p_db p) query_ok with
      | (cache', lines, None) => Some (setSub p AtSubscribe cache' (p_db p) lines)
      | (cache', lines, Some _) =>
          Some (setSub p AtSubscribe cache' (p_db p)
                  (lines ++ ["Failed to restore cache from DB:"])%list)
      end
  | AtSubscribe, Subscribe true =>
      Some (setSub p (Subscribed None) (p_cache p) (p_db p)
              ["Subscribed to channel '" ++ channel ++ "' in NATS Streaming"])
  | AtSubscribe, Subscribe false => Some (fatal p "nats: subscribe")
  | Subscribed None, Deliver msgData =>
      match receive (p_cache p) msgData with
      | (inflight, cache', lines) =>
          Some (setSub p (Subscribed inflight) cache' (p_db p) lines)
      end
  | Subscribed (Some message), Persist exec_ok =>
      match persist message (p_db p) exec_ok with
      | (db', lines) => Some (setSub p (Subscribed None) (p_cache p) db' lines)
      end
  | _, _ => None
  end.

(** A step of the process: nothing runs once the process has exited;
    otherwise the action belongs to one of the two goroutines. *)
Definition step (p : Process) (a : action) : option Process :=
  if exited p then None
  else
    match a with
    | ConnectToDB _ | Go | ListenAndServe _ | Serve _ => stepMain p a
    | NatsConnect _ | Restore _ | Subscribe _ | Deliver _ | Persist _ => stepSub p a
    end.

Fixpoint run (p : Process) (schedule : list action) : option Process :=
  match schedule with
  | [] => Some p
  | a :: rest =>
      match step p a with
      | Some p' => run p' rest
      | None => None
      end
  end.

(** The process when [main] starts: an empty cache, and the table as the
    earlier runs have left it. *)
Definition start (db : DB) : Process :=
  mkProcess AtConnectToDB NotStarted newCache db [] [] false.

(** In [schedule], every step that satisfies [Q] comes after some step
    that satisfies [P]. *)
Definition preceded (P Q : action -> Prop) (schedule : list action) : Prop :=
  forall before b after,
    schedule = (before ++ b :: after)%list -> Q b ->
    exists a, In a before /\ P a.

Definition isServe (a : action) : Prop := exists r, a = Serve r.
Definition isRestore (a : action) : Prop := exists q, a = Restore q.
Definition isDeliver (a : action) : Prop := exists d, a = Deliver d.
Definition isConnected (a : action) : Prop := a = ConnectToDB true.
Definition isListening (a : action) : Prop := a = ListenAndServe true.
Definition isNatsConnected (a : action) : Prop := a = NatsConnect true.
Definition isSubscribed (a : action) : Prop := a = Subscribe true.
Definition isGo (a : action) : Prop := a = Go.
Definition notConnect (a : action) : Prop := forall ok, a <> ConnectToDB ok.

(** The caches the service can hold: the empty cache of [main], and
    what a recovery or a received message makes of one. *)
Inductive reachable : Cache -> Prop :=
| reachable_new : reachable newCache
| reachable_restore cache db query_ok :
    reachable cache ->
    reachable (fst (fst (restoreCacheFromDB cache db query_ok)))
| reachable_message cache db msgData exec_ok :
    reachable cache ->
    reachable (fst (fst (onMessage cache db msgData exec_ok))).

(** The steps that end in [log.Fatal]. *)
Definition isFatal (a : action) : Prop :=
  a = ConnectToDB false \/ a = ListenAndServe false \/
  a = NatsConnect false \/ a = Subscribe false.

(** The goroutine of [subscribeToNATS] has not yet called
    [restoreCacheFromDB]. *)
Definition beforeRestore (pc : subPC) : Prop :=
  pc = NotStarted \/ pc = AtNatsConnect \/ pc = AtRestore.

Definition clientError (resp : Response) : Prop :=
  StatusCode resp = StatusNotFound \/ StatusCode resp = StatusBadRequest.

(** A row as [saveMessageToDB] writes it. *)
Definition savedRow (row : Row) : Prop :=
  exists message, row_id row = OrderUID message /\ marshal message = Some (row_data row).

(** Every key is the order identifier of its record or a decimal
    integer. *)
Definition keyed (cache : Cache) : Prop :=
  forall key message, get cache key = Some message ->
    key = OrderUID message \/ canonical key = true.

(** What a goroutine at a given point has behind it in the schedule. *)
Definition behindMain (pc : mainPC) (done : list action) : Prop :=
  match pc with
  | AtConnectToDB => True
  | AtGo => In (ConnectToDB true) done
  | AtListenAndServe => In (ConnectToDB true) done /\ In Go done
  | Serving =>
      In (ConnectToDB true) done /\ In Go done /\ In (ListenAndServe true) done
  end.

Definition behindSub (pc : subPC) (done : list action) : Prop :=
  match pc with
  | NotStarted => True
  | AtNatsConnect => In (ConnectToDB true) done /\ In Go done
  | AtRestore =>
      In (ConnectToDB true) done /\ In Go done /\ In (NatsConnect true) done
  | AtSubscribe =>
      In (ConnectToDB true) done /\ In Go done /\ In (NatsConnect true) done /\
      exists query_ok, In (Restore query_ok) done
  | Subscribed _ =>
      In (ConnectToDB true) done /\ In Go done /\ In (NatsConnect true) done /\
      (exists query_ok, In (Restore query_ok) done) /\ In (Subscribe true) done
  end.

(** The program point at which an action can be taken. *)
Definition enabledAt (p : Process) (a : action) : Prop :=
  match a with
  | ConnectToDB _ => mainAt p = AtConnectToDB
  | Go => mainAt p = AtGo
  | ListenAndServe true => mainAt p = AtListenAndServe
  | ListenAndServe false => mainAt p = AtListenAndServe \/ mainAt p = Serving
  | Serve _ => mainAt p = Serving
  | NatsConnect _ => subAt p = AtNatsConnect
  | Restore _ => subAt p = AtRestore
  | Subscribe _ => subAt p = AtSubscribe
  | Deliver _ => subAt p = Subscribed None
  | Persist _ => exists message, subAt p = Subscribed (Some message)
  end.

End Service.

(** * Properties *)

(** ** strconv *)

Module strconv_facts.
Import strconv.

Lemma digit_cases (d : Z) :
  0 <= d < 10 ->
  d = 0 \/ d = 1 \/ d = 2 \/ d = 3 \/ d = 4 \/ d = 5 \/ d = 6 \/ d = 7 \/ d = 8 \/ d = 9.
Proof. lia. Qed.

Lemma digit_char_digit (d : Z) :
  0 <= d < 10 ->
  is_digit (digit_char d) = true /\ digit_val (digit_char d) = d /\
  is_sign (digit_char d) = false.
Proof.
  intros Hd.
  destruct (digit_cases d Hd) as [-> | [-> | [-> | [-> | [-> | [-> | [-> | [-> | [-> | ->]]]]]]]]];
    vm_compute; auto.
Qed.

(** Reading back what [formatBits] wrote in front of [acc] continues
    with [u] as the value read so far. *)
Lemma parse_digits_formatBits (fuel : nat) :
  forall u acc,
    0 <= u < 10 ^ Z.of_nat fuel ->
    parse_digits (formatBits fuel u acc) 0 = parse_digits acc u.
Proof.
  induction fuel as [| fuel IH]; intros u acc Hu.
  - assert (u = 0) as -> by (simpl in Hu; lia). reflexivity.
  - cbn [formatBits]. destruct (Z.ltb_spec u 10) as [Hlt | Hge].
    + destruct (digit_char_digit u) as (Hd & Hv & _); [lia |].
      cbn [parse_digits]. rewrite Hd, Hv. f_equal.
    + rewrite Nat2Z.inj_succ, Z.pow_succ_r in Hu by lia.
      rewrite IH.
      * destruct (digit_char_digit (u mod 10)) as (Hd & Hv & _).
        { apply Z.mod_pos_bound. lia. }
        cbn [parse_digits]. rewrite Hd, Hv. f_equal.
        pose proof (Z.div_mod u 10). lia.
      * split; [apply Z.div_pos; lia |].
        apply Z.div_lt_upper_bound; lia.
Qed.

Lemma formatBits_head (fuel : nat) :
  forall u acc,
    0 <= u ->
    exists ch rest,
      formatBits (S fuel) u acc = String ch rest /\ is_sign ch = false.
Proof.
  induction fuel as [| fuel IH]; intros u acc Hu.
  - cbn [formatBits]. destruct (Z.ltb_spec u 10).
    + destruct (digit_char_digit u) as (_ & _ & Hs); [lia |]. eauto.
    + destruct (digit_char_digit (u mod 10)) as (_ & _ & Hs).
      { apply Z.mod_pos_bound. lia. }
      eauto.
  - remember (S fuel) as f. cbn [formatBits]. destruct (Z.ltb_spec u 10).
    + destruct (digit_char_digit u) as (_ & _ & Hs); [lia |]. eauto.
    + subst f. apply IH. apply Z.div_pos; lia.
Qed.

Lemma fuel_enough (u : Z) :
  0 <= u -> u < 10 ^ Z.of_nat (S (Z.to_nat (Z.log2 u))).
Proof.
  intros Hu. rewrite Nat2Z.inj_succ, Z2Nat.id by apply Z.log2_nonneg.
  destruct (Z.eq_dec u 0) as [-> | Hne].
  - vm_compute. reflexivity.
  - pose proof (Z.log2_spec u ltac:(lia)) as [_ Hlt].
    pose proof (Z.log2_nonneg u).
    eapply Z.lt_le_trans; [exact Hlt |].
    apply Z.pow_le_mono_l. lia.
Qed.

Lemma Itoa_nonempty (i : Z) : Itoa i <> EmptyString.
Proof.
  unfold Itoa.
  destruct (formatBits_head (Z.to_nat (Z.log2 (Z.abs i))) (Z.abs i) EmptyString)
    as (ch & rest & -> & _); [lia |].
  destruct (i <? 0); discriminate.
Qed.

Lemma Atoi_Itoa (i : Z) : minInt <= i <= maxInt -> Atoi (Itoa i) = Some i.
Proof.
  intros Hi.
  pose proof (parse_digits_formatBits _ (Z.abs i) EmptyString
                (conj (Z.abs_nonneg i) (fuel_enough _ (Z.abs_nonneg i)))) as Hp.
  change (parse_digits EmptyString (Z.abs i)) with (Some (Z.abs i)) in Hp.
  destruct (formatBits_head (Z.to_nat (Z.log2 (Z.abs i))) (Z.abs i) EmptyString)
    as (ch & rest & Hf & Hs); [lia |].
  unfold Itoa. rewrite Hf in *.
  assert (Hrange : forall v, v = i -> (minInt <=? v) && (v <=? maxInt) = true).
  { intros v ->. apply andb_true_intro. split; apply Z.leb_le; lia. }
  destruct (Z.ltb_spec i 0) as [Hneg | Hpos].
  - unfold Atoi. change (is_sign "-"%char) with true. cbv iota.
    rewrite Hp. change (Ascii.eqb "-" "-") with true. cbv iota zeta.
    rewrite Hrange by lia. f_equal. lia.
  - unfold Atoi. rewrite Hs, Hp.
    assert (Ascii.eqb ch "-" = false) as ->.
    { unfold is_sign in Hs. apply orb_false_elim in Hs. tauto. }
    cbv iota zeta. rewrite Hrange by lia. f_equal. lia.
Qed.

End strconv_facts.

(** ** The service, for any codec *)

Section Properties.

Context `{Codec}.

(** *** The recovery loop *)

Lemma restoreRows_cons (cache : Cache) (row : Row) (rest : list Row) :
  restoreRows cache (row :: rest) =
  match readRow row with
  | inl err => (cache, Some err)
  | inr (key, message) => restoreRows (store cache key message) rest
  end.
Proof.
  cbn [restoreRows]. unfold readRow.
  destruct (scanInt (row_id row)); [| reflexivity].
  destruct (unmarshal (row_data row)); reflexivity.
Qed.

Lemma storeRow_loads (cache : Cache) (row : Row) key message :
  readRow row = inr (key, message) -> storeRow cache row = store cache key message.
Proof. unfold storeRow. intros ->. reflexivity. Qed.

(** While every row loads, the loop is a fold of [storeRow]. *)
Lemma restoreRows_all_load (rows : list Row) :
  forall cache,
    Forall loads rows ->
    restoreRows cache rows = (fold_left storeRow rows cache, None).
Proof.
  induction rows as [| row rows IH]; intros cache Hall; [reflexivity |].
  inversion Hall as [| ? ? [[key message] Hrow] Hrest]; subst.
  rewrite restoreRows_cons, Hrow. cbn [fold_left].
  rewrite (storeRow_loads _ _ _ _ Hrow). apply IH, Hrest.
Qed.

(** The loop ends at the first row that does not load. *)
Lemma restoreRows_stops (before : list Row) (bad : Row) (after : list Row) err :
  forall cache,
    Forall loads before ->
    readRow bad = inl err ->
    restoreRows cache (before ++ bad :: after) =
    (fold_left storeRow before cache, Some err).
Proof.
  induction before as [| row before IH]; intros cache Hall Hbad.
  - cbn [app fold_left]. rewrite restoreRows_cons, Hbad. reflexivity.
  - inversion Hall as [| ? ? [[key message] Hrow] Hrest]; subst.
    cbn [app fold_left]. rewrite restoreRows_cons, Hrow.
    rewrite (storeRow_loads _ _ _ _ Hrow). apply IH; assumption.
Qed.

Lemma restoreRows_app (before rest : list Row) :
  forall cache,
    Forall loads before ->
    restoreRows cache (before ++ rest) =
    restoreRows (fold_left storeRow before cache) rest.
Proof.
  induction before as [| row before IH]; intros cache Hall; [reflexivity |].
  inversion Hall as [| ? ? [[key message] Hrow] Hrest]; subst.
  cbn [app fold_left]. rewrite restoreRows_cons, Hrow.
  rewrite (storeRow_loads _ _ _ _ Hrow). apply IH, Hrest.
Qed.

(** Whatever the rows, the cache that the loop leaves is the fold of
    [storeRow] over the rows before the first one that does not load. *)
Lemma restoreRows_prefix (rows : list Row) :
  forall cache,
    fst (restoreRows cache rows) = fold_left storeRow (loadedPrefix rows) cache.
Proof.
  induction rows as [| row rows IH]; intros cache; [reflexivity |].
  rewrite restoreRows_cons. cbn [loadedPrefix].
  destruct (readRow row) as [err | [key message]] eqn:Hrow; [reflexivity |].
  cbn [fold_left]. rewrite (storeRow_loads _ _ _ _ Hrow). apply IH.
Qed.

Lemma loadedPrefix_Forall (P : Row -> Prop) (rows : list Row) :
  Forall P rows -> Forall P (loadedPrefix rows).
Proof.
  induction 1 as [| row rows Hrow _ IH]; cbn [loadedPrefix]; [constructor |].
  destruct (readRow row); by constructor.
Qed.

(** A row that does not load ends the loop wherever it is enumerated:
    the result is an error, and the cache is that of the rows before. *)
Lemma restoreRows_bad_row (before after : list Row) (bad : Row) (err : error) :
  forall cache,
    readRow bad = inl err ->
    fst (restoreRows cache (before ++ bad :: after)) = fst (restoreRows cache before) /\
    snd (restoreRows cache (before ++ bad :: after)) <> None.
Proof.
  induction before as [| row before IH]; intros cache Hbad.
  - cbn [app]. rewrite restoreRows_cons, Hbad. cbn. split; [reflexivity | discriminate].
  - cbn [app]. rewrite !restoreRows_cons.
    destruct (readRow row) as [e | [key message]].
    + cbn. split; [reflexivity | discriminate].
    + by apply IH.
Qed.

Lemma restoreCacheFromDB_cache (cache : Cache) (db : DB) (query_ok : bool) :
  fst (fst (restoreCacheFromDB cache db query_ok)) =
  if query_ok then fst (restoreRows cache (messages db)) else cache.
Proof.
  unfold restoreCacheFromDB. destruct query_ok; [| reflexivity].
  destruct (restoreRows cache (messages db)) as [cache' [err |]]; reflexivity.
Qed.

(** *** Reads after writes *)

Lemma get_store_eq (cache : Cache) key message :
  get (store cache key message) key = Some message.
Proof. unfold get, store. cbn. apply lookup_insert_eq. Qed.

Lemma get_store_ne (cache : Cache) key key' message :
  key <> key' -> get (store cache key message) key' = get cache key'.
Proof. intros Hne. unfold get, store. cbn. by apply lookup_insert_ne. Qed.

Lemma get_storeRow_other (cache : Cache) (row : Row) key :
  rowKey row <> Some key -> get (storeRow cache row) key = get cache key.
Proof.
  unfold rowKey, storeRow. destruct (readRow row) as [err | [k m]]; [reflexivity |].
  intros Hne. apply get_store_ne. congruence.
Qed.

Lemma get_fold_storeRow_other (rows : list Row) key :
  forall cache,
    Forall (fun row => rowKey row <> Some key) rows ->
    get (fold_left storeRow rows cache) key = get cache key.
Proof.
  induction rows as [| row rows IH]; intros cache Hall; [reflexivity |].
  inversion Hall; subst. cbn [fold_left].
  rewrite IH by assumption. by apply get_storeRow_other.
Qed.

(** The last row stored under a key is the one the cache holds. *)
Lemma get_fold_storeRow_last (before after : list Row) (row : Row) key message :
  forall cache,
    readRow row = inr (key, message) ->
    Forall (fun later => rowKey later <> Some key) after ->
    get (fold_left storeRow (before ++ row :: after) cache) key = Some message.
Proof.
  intros cache Hrow Hafter.
  rewrite fold_left_app. cbn [fold_left].
  rewrite get_fold_storeRow_other by assumption.
  rewrite (storeRow_loads _ _ _ _ Hrow). apply get_store_eq.
Qed.

Lemma Atoi_range (s : string) (v : Z) :
  strconv.Atoi s = Some v -> strconv.minInt <= v <= strconv.maxInt.
Proof.
  unfold strconv.Atoi. destruct s as [| s0 rest]; [discriminate |].
  destruct (if strconv.is_sign s0 then rest else String s0 rest); [discriminate |].
  destruct (strconv.parse_digits _ 0) as [n |]; [| discriminate].
  cbv zeta.
  destruct (_ && _) eqn:Hr; [| discriminate].
  intros [= <-]. apply andb_prop in Hr as [H1 H2].
  apply Z.leb_le in H1, H2. lia.
Qed.

(** Rows with different integer identifiers have different cache keys. *)
Lemma rowKey_scanInt (row : Row) (id : Z) (other : Row) :
  scanInt (row_id row) = Some id ->
  scanInt (row_id other) <> Some id ->
  rowKey other <> Some (strconv.Itoa id).
Proof.
  intros Hid Hother. unfold rowKey, readRow.
  destruct (scanInt (row_id other)) as [id' |] eqn:Hid'; [| discriminate].
  destruct (unmarshal (row_data other)); [| discriminate].
  intros [= Heq]. apply Hother. f_equal.
  apply Atoi_range in Hid, Hid'.
  apply strconv_facts.Atoi_Itoa in Hid, Hid'. congruence.
Qed.

(** *** The cache (C6) *)

(** C6: after [put R], [get] on [R]'s order identifier returns [R]
    itself, every field and the items in their order; and [get] on an
    identifier under which nothing was written, starting from the empty
    cache, finds nothing. *)
Theorem put_get (writes : list (string * Message)) (cache : Cache)
    (R : Message) (orderID : string) :
  ~ In orderID (map fst writes) ->
  get (put cache R) (OrderUID R) = Some R /\
  (forall R', get (put cache R) (OrderUID R) = Some R' -> Items R' = Items R) /\
  get (fold_left (fun c w => store c (fst w) (snd w)) writes newCache) orderID = None.
Proof.
  intros Hfresh. split; [apply get_store_eq |]. split.
  - intros R'. unfold put. rewrite get_store_eq. by intros [= <-].
  - assert (Hgen : forall cache0, get cache0 orderID = None ->
              get (fold_left (fun c w => store c (fst w) (snd w)) writes cache0) orderID
              = None).
    { clear cache R. induction writes as [| [key message] writes IH];
        intros cache0 Hnone; [done |].
      cbn [fold_left fst snd]. apply IH.
      - intros Hin. apply Hfresh. right. exact Hin.
      - rewrite get_store_ne; [done |].
        intros Heq. apply Hfresh. left. exact Heq. }
    apply Hgen. unfold get, newCache. cbn. apply lookup_empty.
Qed.

(** *** The query handler (C10) *)

(** C10: the handler maps the identifier parameter to the integer it
    parses to and consults the cache at [strconv.Itoa] of that integer:
    a request whose parameter parses to [id] gets the answer that the
    entry at key [Itoa id] determines, which is also the answer to the
    parameter [Itoa id] itself; so two requests whose parameters parse
    to the same integer get the same answer from the same cache, and
    ["007"], ["+7"] and ["7"] all parse to 7, whose key is ["7"]. *)
Theorem handler_canonical_id (cache : Cache) (r1 r2 : Request) (id : Z) :
  strconv.Atoi (Get (URLQuery r1) "id") = Some id ->
  strconv.Atoi (Get (URLQuery r2) "id") = Some id ->
  let answer :=
    match get cache (strconv.Itoa id) with
    | None => http_Error "Message not found" StatusNotFound
    | Some message =>
        match marshal message with
        | None => http_Error "Failed to marshal data" StatusInternalServerError
        | Some jsonData => mkResponse StatusOK "application/json" jsonData
        end
    end in
  getDataFromCacheHandler cache r1 = answer /\
  getDataFromCacheHandler cache r2 = answer /\
  getDataFromCacheHandler cache (mkRequest [("id", strconv.Itoa id)]) = answer /\
  getDataFromCacheHandler cache r1 = getDataFromCacheHandler cache r2 /\
  strconv.Atoi "007" = Some 7 /\ strconv.Atoi "+7" = Some 7 /\
  strconv.Atoi "7" = Some 7 /\ strconv.Itoa 7 = "7".
Proof.
  intros H1 H2 answer.
  assert (Hcanon : strconv.Atoi (strconv.Itoa id) = Some id).
  { apply strconv_facts.Atoi_Itoa. eapply Atoi_range. exact H1. }
  assert (Hr1 : getDataFromCacheHandler cache r1 = answer).
  { unfold getDataFromCacheHandler. cbv zeta. rewrite H1. reflexivity. }
  assert (Hr2 : getDataFromCacheHandler cache r2 = answer).
  { unfold getDataFromCacheHandler. cbv zeta. rewrite H2. reflexivity. }
  split; [exact Hr1 |]. split; [exact Hr2 |]. split.
  - unfold getDataFromCacheHandler. cbv zeta. cbn [URLQuery Get].
    rewrite String.eqb_refl, Hcanon. reflexivity.
  - split; [congruence |]. repeat split; vm_compute; reflexivity.
Qed.

Lemma handler_found (cache : Cache) (r : Request) (id : Z) (message : Message) body :
  strconv.Atoi (Get (URLQuery r) "id") = Some id ->
  get cache (strconv.Itoa id) = Some message ->
  marshal message = Some body ->
  getDataFromCacheHandler cache r = mkResponse StatusOK "application/json" body.
Proof.
  intros Hid Hget Hbody. unfold getDataFromCacheHandler. cbv zeta.
  rewrite Hid, Hget, Hbody. reflexivity.
Qed.

(** *** Recovery (C1, C2, C7, C9) *)

(** C1, amended: a row whose identifier is the text of an integer and
    whose payload decodes to a record that encodes is served after
    recovery under that same identifier, as the encoding of the decoded
    record, provided that the rows enumerated before it load and no
    row enumerated after it has the same integer identifier. *)
Theorem recovered_row_is_served (cache : Cache) (db : DB)
    (before after : list Row) (row : Row) (id : Z) (message : Message)
    (body : string) (r : Request) :
  messages db = (before ++ row :: after)%list ->
  Forall loads before ->
  scanInt (row_id row) = Some id ->
  unmarshal (row_data row) = Some message ->
  marshal message = Some body ->
  Forall (fun later => scanInt (row_id later) <> Some id) after ->
  Get (URLQuery r) "id" = row_id row ->
  getDataFromCacheHandler (fst (fst (restoreCacheFromDB cache db true))) r =
    mkResponse StatusOK "application/json" body.
Proof.
  intros Hrows Hbefore Hid Hmsg Hbody Hlater Hparam.
  assert (Hrow : readRow row = inr (strconv.Itoa id, message)).
  { unfold readRow. rewrite Hid, Hmsg. reflexivity. }
  eapply handler_found; [rewrite Hparam; exact Hid | | exact Hbody].
  rewrite restoreCacheFromDB_cache, Hrows, restoreRows_app by exact Hbefore.
  rewrite restoreRows_cons, Hrow, restoreRows_prefix.
  rewrite get_fold_storeRow_other; [apply get_store_eq |].
  apply loadedPrefix_Forall.
  eapply Forall_impl; [exact Hlater |].
  intros other Hother. eapply rowKey_scanInt; eassumption.
Qed.

(** C2, amended: recovery ends at the first row that fails to scan or to
    decode and returns that error, which [subscribeToNATS] logs before it
    goes on to subscribe; the rows before it are loaded, each one
    retrievable under its key unless a later loaded row has the same
    key, and the rows after it are not read. *)
Theorem recovery_stops_at_first_bad_row (cache : Cache)
    (before after : list Row) (bad : Row) (err : error) :
  Forall loads before ->
  readRow bad = inl err ->
  restoreRows cache (before ++ bad :: after) = (fst (restoreRows cache before), Some err) /\
  restoreCacheFromDB cache (mkDB (before ++ bad :: after)) true =
    (fst (restoreRows cache before), [], Some err) /\
  (forall p,
     exited p = false -> subAt p = AtRestore ->
     p_cache p = cache -> p_db p = mkDB (before ++ bad :: after) ->
     step p (Restore true) =
       Some (setSub p AtSubscribe (fst (restoreRows cache before)) (p_db p)
               ["Failed to restore cache from DB:"])) /\
  forall pre row post key message,
    before = (pre ++ row :: post)%list ->
    readRow row = inr (key, message) ->
    Forall (fun later => rowKey later <> Some key) post ->
    get (fst (restoreRows cache (before ++ bad :: after))) key = Some message.
Proof.
  intros Hbefore Hbad.
  pose proof (restoreRows_stops before bad after err cache Hbefore Hbad) as Hstop.
  rewrite (restoreRows_all_load before cache Hbefore). cbn [fst].
  assert (Hrestore : restoreCacheFromDB cache (mkDB (before ++ bad :: after)) true =
                     (fold_left storeRow before cache, [], Some err)).
  { unfold restoreCacheFromDB. cbn [messages]. rewrite Hstop. reflexivity. }
  split; [exact Hstop |]. split; [exact Hrestore |]. split.
  - intros p Hrun Hsub Hcache Hdb. unfold step, stepSub.
    rewrite Hrun, Hsub, Hcache, Hdb, Hrestore. reflexivity.
  - intros pre row post key message -> Hrow Hpost. rewrite Hstop. cbn [fst].
    by apply get_fold_storeRow_last.
Qed.

Lemma store_commute (cache : Cache) key1 key2 message1 message2 :
  key1 <> key2 ->
  store (store cache key1 message1) key2 message2 =
  store (store cache key2 message2) key1 message1.
Proof.
  intros Hne. unfold store. cbn. f_equal. by apply insert_insert_ne.
Qed.

Lemma storeRow_commute (cache : Cache) (row1 row2 : Row) :
  loads row1 -> loads row2 ->
  scanInt (row_id row1) <> scanInt (row_id row2) ->
  storeRow (storeRow cache row1) row2 = storeRow (storeRow cache row2) row1.
Proof.
  intros [[key1 message1] H1] [[key2 message2] H2] Hne.
  rewrite !(storeRow_loads _ _ _ _ H1), !(storeRow_loads _ _ _ _ H2).
  apply store_commute. intros ->.
  unfold readRow in H1, H2.
  destruct (scanInt (row_id row1)) as [id1 |] eqn:Hid1; [| discriminate].
  destruct (scanInt (row_id row2)) as [id2 |] eqn:Hid2; [| discriminate].
  destruct (unmarshal (row_data row1)); [| discriminate].
  destruct (unmarshal (row_data row2)); [| discriminate].
  injection H1 as Hk1 _. injection H2 as Hk2 _.
  apply Hne. f_equal.
  apply Atoi_range in Hid1, Hid2.
  apply strconv_facts.Atoi_Itoa in Hid1, Hid2. congruence.
Qed.

Lemma fold_storeRow_permutation (rows rows' : list Row) :
  Permutation rows rows' ->
  forall cache,
    Forall loads rows ->
    NoDup (map (fun row => scanInt (row_id row)) rows) ->
    fold_left storeRow rows cache = fold_left storeRow rows' cache.
Proof.
  induction 1 as [| row l l' Hperm IH | row1 row2 l | l l' l'' Hp1 IH1 Hp2 IH2];
    intros cache Hall Hnodup.
  - reflexivity.
  - inversion Hall; subst. cbn [map] in Hnodup. inversion Hnodup; subst.
    cbn [fold_left]. by apply IH.
  - inversion Hall as [| ? ? Hl2 Hall']; subst.
    inversion Hall' as [| ? ? Hl1 _]; subst.
    cbn [map] in Hnodup. inversion Hnodup as [| ? ? Hnotin _]; subst.
    cbn [fold_left]. f_equal. apply storeRow_commute; [assumption .. |].
    intros Heq. apply Hnotin. rewrite Heq. left.
  - rewrite IH1 by assumption. apply IH2.
    + eapply Permutation_Forall; eassumption.
    + by rewrite <- (Permutation_map (fun row => scanInt (row_id row)) Hp1).
Qed.

(** C7, amended: when every row scans and decodes and the integer
    identifiers of the rows are pairwise different, recovery gives the
    same cache (and no error) for every order of enumeration. *)
Theorem recovery_order_independent (cache : Cache) (rows rows' : list Row) :
  Permutation rows rows' ->
  Forall loads rows ->
  NoDup (map (fun row => scanInt (row_id row)) rows) ->
  restoreRows cache rows = restoreRows cache rows' /\
  snd (restoreRows cache rows) = None.
Proof.
  intros Hperm Hall Hnodup.
  rewrite (restoreRows_all_load rows cache Hall).
  rewrite (restoreRows_all_load rows' cache)
    by (eapply Permutation_Forall; eassumption).
  split; [| reflexivity]. f_equal. by apply fold_storeRow_permutation.
Qed.

Lemma Itoa_key_nonempty (cache : Cache) (id : Z) (message : Message) :
  get cache "" = None -> get (store cache (strconv.Itoa id) message) "" = None.
Proof.
  intros Hnone. rewrite get_store_ne; [exact Hnone |].
  apply strconv_facts.Itoa_nonempty.
Qed.

Lemma restoreRows_no_empty_key (rows : list Row) :
  forall cache,
    get cache "" = None -> get (fst (restoreRows cache rows)) "" = None.
Proof.
  induction rows as [| row rows IH]; intros cache Hnone; [exact Hnone |].
  rewrite restoreRows_cons. unfold readRow.
  destruct (scanInt (row_id row)) as [id |]; [| exact Hnone].
  destruct (unmarshal (row_data row)) as [message |]; [| exact Hnone].
  apply IH. by apply Itoa_key_nonempty.
Qed.

Lemma onMessage_cache (cache : Cache) (db : DB) (msgData : string) (exec_ok : bool) :
  fst (fst (onMessage cache db msgData exec_ok)) =
  match unmarshal msgData with
  | Some message => put cache message
  | None => cache
  end.
Proof.
  unfold onMessage, receive. destruct (unmarshal msgData) as [message |]; [| reflexivity].
  destruct (persist message db exec_ok). reflexivity.
Qed.

(** C9, amended: recovery never stores an entry under the empty key, and
    ingestion stores each record under its own order identifier without
    checking it: the cache gets an entry with the empty key only from a
    message whose decoded order identifier is empty. *)
Theorem empty_key_only_from_empty_order_uid (cache : Cache) (db : DB)
    (msgData : string) (ok : bool) :
  get cache "" = None ->
  get (fst (fst (restoreCacheFromDB cache db ok))) "" = None /\
  ((forall message, unmarshal msgData = Some message -> OrderUID message <> "") ->
   get (fst (fst (onMessage cache db msgData ok))) "" = None) /\
  (forall message, unmarshal msgData = Some message ->
   get (fst (fst (onMessage cache db msgData ok))) (OrderUID message) = Some message).
Proof.
  intros Hnone. split; [| split].
  - unfold restoreCacheFromDB. destruct ok; [| exact Hnone].
    pose proof (restoreRows_no_empty_key (messages db) cache Hnone) as Hrows.
    destruct (restoreRows cache (messages db)) as [cache' [err |]]; exact Hrows.
  - intros Hvalid. rewrite onMessage_cache.
    destruct (unmarshal msgData) as [message |] eqn:Hmsg; [| exact Hnone].
    unfold put. rewrite get_store_ne; [exact Hnone |]. by apply Hvalid.
  - intros message Hmsg. rewrite onMessage_cache, Hmsg. apply get_store_eq.
Qed.

(** *** Ingestion (C4, C5) *)

(** C4, amended: for a payload that decodes, the row submitted to the
    table is the pair of the record's order identifier and the service's
    own encoding of the decoded record; it carries the inbound payload
    itself exactly when the payload is that encoding. *)
Theorem persisted_row_is_reencoding (cache : Cache) (db : DB)
    (msgData : string) (message : Message) (body : string) :
  unmarshal msgData = Some message ->
  marshal message = Some body ->
  let row := mkRow (OrderUID message) body in
  saveMessageToDB message db true = (mkDB (messages db ++ [row]), None) /\
  onMessage cache db msgData true = (put cache message, mkDB (messages db ++ [row]), []) /\
  (row_data row = msgData <-> marshal message = Some msgData).
Proof.
  intros Hmsg Hbody row.
  assert (Hsave : saveMessageToDB message db true = (mkDB (messages db ++ [row]), None)).
  { unfold saveMessageToDB. rewrite Hbody. reflexivity. }
  split; [exact Hsave |]. split.
  - unfold onMessage, receive, persist. rewrite Hmsg, Hsave. reflexivity.
  - subst row. cbn [row_data]. rewrite Hbody. split; congruence.
Qed.


(** *** What the handler can answer (C8) *)

(** C8, amended: the handler answers one of four ways: the record
    (200, the encoding of the cached message), not found (404), invalid
    identifier (400, when the parameter does not parse, in particular
    when it is absent), or internal server error (500), the last exactly
    when the cached message under the key does not encode.  It reads
    the cache and nothing else: no persistence or decode failure shows
    in an answer. *)
Theorem handler_outcomes (cache : Cache) (r : Request) :
  let idStr := Get (URLQuery r) "id" in
  let resp := getDataFromCacheHandler cache r in
  ((exists id message body,
      strconv.Atoi idStr = Some id /\
      get cache (strconv.Itoa id) = Some message /\
      marshal message = Some body /\
      resp = mkResponse StatusOK "application/json" body) \/
   (exists id,
      strconv.Atoi idStr = Some id /\
      get cache (strconv.Itoa id) = None /\
      resp = http_Error "Message not found" StatusNotFound) \/
   (strconv.Atoi idStr = None /\
    resp = http_Error "Invalid ID" StatusBadRequest) \/
   (exists id message,
      strconv.Atoi idStr = Some id /\
      get cache (strconv.Itoa id) = Some message /\
      marshal message = None /\
      resp = http_Error "Failed to marshal data" StatusInternalServerError)) /\
  (StatusCode resp = StatusInternalServerError <->
   exists id message,
     strconv.Atoi idStr = Some id /\
     get cache (strconv.Itoa id) = Some message /\
     marshal message = None) /\
  (idStr = "" -> resp = http_Error "Invalid ID" StatusBadRequest).
Proof.
  intros idStr resp.
  subst resp. unfold getDataFromCacheHandler. cbv zeta. fold idStr.
  destruct (strconv.Atoi idStr) as [id |] eqn:Hid.
  - destruct (get cache (strconv.Itoa id)) as [message |] eqn:Hget.
    + destruct (marshal message) as [body |] eqn:Hbody.
      * split; [left; eauto 10 |]. split.
        -- split; [discriminate |].
           intros (id' & message' & [= <-] & Hget' & Hnone). congruence.
        -- intros Hempty. rewrite Hempty in Hid. discriminate.
      * split; [right; right; right; eauto 10 |]. split.
        -- split; [eauto 10 | reflexivity].
        -- intros Hempty. rewrite Hempty in Hid. discriminate.
    + split; [right; left; eauto |]. split.
      * split; [discriminate |].
        intros (id' & message' & [= <-] & Hget' & _). congruence.
      * intros Hempty. rewrite Hempty in Hid. discriminate.
  - split; [right; right; left; eauto |]. split.
    + split; [discriminate |]. intros (id' & message' & Hsome & _). discriminate.
    + reflexivity.
Qed.

(** *** The order of the startup steps (C3) *)

Lemma run_app (before after : list action) :
  forall p,
    run p (before ++ after) =
    match run p before with
    | Some p' => run p' after
    | None => None
    end.
Proof.
  induction before as [| a before IH]; intros p; [reflexivity |].
  cbn [app run]. destruct (step p a); [apply IH | reflexivity].
Qed.

Lemma step_enabled (p p' : Process) (a : action) :
  step p a = Some p' -> enabledAt p a.
Proof.
  unfold step, stepMain, stepSub, enabledAt.
  destruct (exited p); [discriminate |].
  destruct a as [[] | | [] | r | [] | q | [] | d | e];
    destruct (mainAt p); destruct (subAt p) as [| | | | [m |]];
    try discriminate; intros _; eauto.
Qed.

Lemma behindMain_more (pc : mainPC) (done : list action) (a : action) :
  behindMain pc done -> behindMain pc (done ++ [a]).
Proof. destruct pc; cbn; rewrite ?in_app_iff; tauto. Qed.

Lemma behindSub_more (pc : subPC) (done : list action) (a : action) :
  behindSub pc done -> behindSub pc (done ++ [a]).
Proof.
  destruct pc; cbn; rewrite ?in_app_iff; try tauto.
  - intros (? & ? & ? & q & ?). repeat split; auto. exists q. rewrite in_app_iff. auto.
  - intros (? & ? & ? & (q & ?) & ?). repeat split; auto. exists q. rewrite in_app_iff. auto.
Qed.

Lemma in_last (done : list action) (a : action) : In a (done ++ [a]).
Proof. apply in_app_iff. right. left. reflexivity. Qed.

(** Each step keeps both goroutines' pasts in the schedule. *)
Lemma step_behind (p p' : Process) (a : action) (done : list action) :
  step p a = Some p' ->
  behindMain (mainAt p) done /\ behindSub (subAt p) done ->
  behindMain (mainAt p') (done ++ [a]) /\ behindSub (subAt p') (done ++ [a]).
Proof.
  intros Hstep [Hmain Hsub].
  apply (behindMain_more _ _ a) in Hmain. apply (behindSub_more _ _ a) in Hsub.
  pose proof (in_last done a) as Hlast.
  revert Hstep. unfold step, stepMain, stepSub.
  destruct (exited p); [discriminate |].
  destruct a as [[] | | [] | r | [] | q | [] | d | e];
    destruct (mainAt p) eqn:Hm; destruct (subAt p) as [| | | | [m |]] eqn:Hs;
    try discriminate;
    try (intros [= <-]; cbn; rewrite ?Hm, ?Hs; cbn in *; intuition eauto; fail).
  all: try (destruct (restoreCacheFromDB (p_cache p) (p_db p) q) as [[c l] [err |]];
            intros [= <-]; cbn; rewrite ?Hm; cbn in *; intuition eauto; fail).
  all: try (destruct (receive (p_cache p) d) as [[i c] l];
            intros [= <-]; cbn; rewrite ?Hm; cbn in *; intuition eauto; fail).
  all: try (destruct (persist m (p_db p) e) as [d' l];
            intros [= <-]; cbn; rewrite ?Hm; cbn in *; intuition eauto; fail).
Qed.

Lemma run_behind (db : DB) (done : list action) :
  forall p,
    run (start db) done = Some p ->
    behindMain (mainAt p) done /\ behindSub (subAt p) done.
Proof.
  induction done as [| a done IH] using rev_ind; intros p Hrun.
  - injection Hrun as <-. cbn. auto.
  - rewrite run_app in Hrun.
    destruct (run (start db) done) as [p0 |]; [| discriminate].
    cbn [run] in Hrun. destruct (step p0 a) as [p1 |] eqn:Hstep; [| discriminate].
    injection Hrun as <-. eapply step_behind; eauto.
Qed.

Lemma connected_first (p : Process) (b : action) (done : list action) :
  enabledAt p b -> notConnect b ->
  behindMain (mainAt p) done -> behindSub (subAt p) done ->
  In (ConnectToDB true) done.
Proof.
  intros Hen Hb Hmain Hsub.
  destruct b as [ok | | [] | r | [] | q | [] | d | e]; cbn in Hen.
  - exfalso. eapply Hb. reflexivity.
  - rewrite Hen in Hmain. exact Hmain.
  - rewrite Hen in Hmain. apply Hmain.
  - destruct Hen as [Hen | Hen]; rewrite Hen in Hmain; apply Hmain.
  - rewrite Hen in Hmain. apply Hmain.
  - rewrite Hen in Hsub. apply Hsub.
  - rewrite Hen in Hsub. apply Hsub.
  - rewrite Hen in Hsub. apply Hsub.
  - rewrite Hen in Hsub. apply Hsub.
  - rewrite Hen in Hsub. apply Hsub.
  - rewrite Hen in Hsub. apply Hsub.
  - destruct Hen as [m Hen]. rewrite Hen in Hsub. apply Hsub.
Qed.

(** C3, amended: the connection to the database comes before every
    other step; inside the goroutine that [main] then starts, the
    connection to the message stream, the recovery, the subscription and
    the delivery of messages follow in this order; query serving starts
    after that goroutine is started and is ordered with none of its
    steps. *)
Theorem startup_order (db : DB) (schedule : list action) (p : Process) :
  run (start db) schedule = Some p ->
  preceded isConnected notConnect schedule /\
  preceded isGo isNatsConnected schedule /\
  preceded isNatsConnected isRestore schedule /\
  preceded isRestore isSubscribed schedule /\
  preceded isSubscribed isDeliver schedule /\
  preceded isRestore isDeliver schedule /\
  preceded isGo isListening schedule /\
  preceded isListening isServe schedule.
Proof.
  intros Hrun.
  assert (Hsplit : forall before b after,
             schedule = (before ++ b :: after)%list ->
             exists p0, enabledAt p0 b /\
               behindMain (mainAt p0) before /\ behindSub (subAt p0) before).
  { intros before b after ->. rewrite run_app in Hrun.
    destruct (run (start db) before) as [p0 |] eqn:Hbefore; [| discriminate].
    cbn [run] in Hrun. destruct (step p0 b) as [p1 |] eqn:Hstep; [| discriminate].
    exists p0. split; [eapply step_enabled; eassumption |].
    by apply (run_behind db). }
  unfold preceded, isConnected, isGo, isNatsConnected, isRestore, isSubscribed,
    isDeliver, isListening, isServe, notConnect.
  repeat split; intros before b after Heq Hb;
    destruct (Hsplit _ _ _ Heq) as (p0 & Hen & Hmain & Hsub).
  - exists (ConnectToDB true). split; [| reflexivity].
    eapply connected_first; eassumption.
  - subst b. cbn in Hen. rewrite Hen in Hsub. cbn in Hsub. exists Go. intuition.
  - destruct Hb as [q ->]. cbn in Hen. rewrite Hen in Hsub. cbn in Hsub.
    exists (NatsConnect true). intuition.
  - subst b. cbn in Hen. rewrite Hen in Hsub. cbn in Hsub.
    destruct Hsub as (_ & _ & _ & q & Hq). exists (Restore q). eauto.
  - destruct Hb as [d ->]. cbn in Hen. rewrite Hen in Hsub. cbn in Hsub.
    exists (Subscribe true). intuition.
  - destruct Hb as [d ->]. cbn in Hen. rewrite Hen in Hsub. cbn in Hsub.
    destruct Hsub as (_ & _ & _ & (q & Hq) & _). exists (Restore q). eauto.
  - subst b. cbn in Hen. rewrite Hen in Hmain. cbn in Hmain. exists Go. intuition.
  - destruct Hb as [r ->]. cbn in Hen. rewrite Hen in Hmain. cbn in Hmain.
    exists (ListenAndServe true). intuition.
Qed.

(** The caches of the running process are the reachable ones. *)
Lemma step_reachable (p p' : Process) (a : action) :
  step p a = Some p' -> reachable (p_cache p) -> reachable (p_cache p').
Proof.
  unfold step, stepMain, stepSub. destruct (exited p); [discriminate |].
  intros Hstep Hreach.
  destruct a as [[] | | [] | r | [] | q | [] | d | e];
    destruct (mainAt p); destruct (subAt p) as [| | | | [m |]];
    try discriminate; try (injection Hstep as <-; exact Hreach).
  all: try (pose proof (reachable_restore (p_cache p) (p_db p) q Hreach) as Hr;
            destruct (restoreCacheFromDB (p_cache p) (p_db p) q) as [[c l] [err |]];
            injection Hstep as <-; exact Hr).
  all: try (pose proof (reachable_message (p_cache p) (p_db p) d true Hreach) as Hr;
            rewrite onMessage_cache in Hr; unfold receive in Hstep;
            destruct (unmarshal d); injection Hstep as <-; exact Hr).
  all: try (destruct (persist m (p_db p) e) as [d' l];
            injection Hstep as <-; exact Hreach).
Qed.

Lemma run_reachable (schedule : list action) :
  forall p p', reachable (p_cache p) -> run p schedule = Some p' ->
    reachable (p_cache p').
Proof.
  induction schedule as [| a schedule IH]; intros p p' Hreach Hrun.
  - injection Hrun as <-. exact Hreach.
  - cbn [run] in Hrun. destruct (step p a) as [p1 |] eqn:Hstep; [| discriminate].
    eapply IH; [| exact Hrun]. eapply step_reachable; eassumption.
Qed.

(** ** Further properties of the code *)

(** *** The handler and its keys *)

Lemma Itoa_canonical (i : Z) :
  strconv.minInt <= i <= strconv.maxInt -> canonical (strconv.Itoa i) = true.
Proof.
  intros Hi. unfold canonical. rewrite strconv_facts.Atoi_Itoa by exact Hi.
  apply String.eqb_refl.
Qed.

(** X1: an entry stored under a key that is not the decimal form of an
    integer changes no answer of the handler: no request reaches it. *)
Theorem non_canonical_key_never_served (cache : Cache) (key : string)
    (message : Message) (r : Request) :
  canonical key = false ->
  getDataFromCacheHandler (store cache key message) r = getDataFromCacheHandler cache r.
Proof.
  intros Hkey. unfold getDataFromCacheHandler. cbv zeta.
  destruct (strconv.Atoi (Get (URLQuery r) "id")) as [id |] eqn:Hid; [| reflexivity].
  rewrite get_store_ne; [reflexivity |].
  intros ->. rewrite Itoa_canonical in Hkey; [discriminate |].
  eapply Atoi_range. exact Hid.
Qed.

(** X2: a request whose parameter is the decimal form of an integer
    that fits [int] is never answered "Invalid ID": it reads the cache
    at exactly that key. *)
Theorem decimal_parameter_reads_its_key (cache : Cache) (r : Request) (i : Z) :
  strconv.minInt <= i <= strconv.maxInt ->
  Get (URLQuery r) "id" = strconv.Itoa i ->
  getDataFromCacheHandler cache r =
  match get cache (strconv.Itoa i) with
  | None => http_Error "Message not found" StatusNotFound
  | Some message =>
      match marshal message with
      | None => http_Error "Failed to marshal data" StatusInternalServerError
      | Some jsonData => mkResponse StatusOK "application/json" jsonData
      end
  end.
Proof.
  intros Hi Hparam. unfold getDataFromCacheHandler. cbv zeta.
  rewrite Hparam, strconv_facts.Atoi_Itoa by exact Hi. reflexivity.
Qed.

Lemma Get_skip (pre rest : list (string * string)) (key : string) :
  Forall (fun kv => fst kv <> key) pre ->
  Get (pre ++ rest) key = Get rest key.
Proof.
  induction pre as [| [k v] pre IH]; intros Hpre; [reflexivity |].
  inversion Hpre as [| ? ? Hk Hrest]; subst. cbn [app Get].
  destruct (String.eqb_spec k key) as [Heq | _]; [by destruct Hk |].
  apply IH, Hrest.
Qed.

(** X3: without an [id] parameter in the query the answer is
    "Invalid ID", whatever the cache holds. *)
Theorem missing_id_is_invalid (cache : Cache) (r : Request) :
  Forall (fun kv => fst kv <> "id") (URLQuery r) ->
  getDataFromCacheHandler cache r = http_Error "Invalid ID" StatusBadRequest.
Proof.
  intros Hmissing. unfold getDataFromCacheHandler. cbv zeta.
  rewrite <- (app_nil_r (URLQuery r)), (Get_skip _ [] "id" Hmissing).
  reflexivity.
Qed.

(** *** Recovery *)

(** X4: recovery changes the cache only at the keys of the rows it
    stores, those before the first row that does not load: every other
    key keeps what it had, whether the loop ends with an error or not. *)
Theorem recovery_leaves_other_keys (rows : list Row) (cache : Cache) (key : string) :
  Forall (fun row => rowKey row <> Some key) (loadedPrefix rows) ->
  get (fst (restoreRows cache rows)) key = get cache key.
Proof.
  intros Hrows. rewrite restoreRows_prefix.
  by apply get_fold_storeRow_other.
Qed.

Lemma saveMessageToDB_ok (message : Message) (db : DB) (body : string) :
  marshal message = Some body ->
  saveMessageToDB message db true =
  (mkDB (messages db ++ [mkRow (OrderUID message) body]), None).
Proof. intros Hbody. unfold saveMessageToDB. rewrite Hbody. reflexivity. Qed.

(** X5: once a message whose order identifier is not the text of an
    integer has been inserted (the [id] column then holds that text),
    every recovery of the table ends with an error, in whatever order
    the rows are enumerated, and stores nothing from the rows enumerated
    after that row. *)
Theorem non_integer_order_uid_blocks_recovery (cache : Cache) (db : DB)
    (message : Message) (body : string) (rows : list Row) :
  marshal message = Some body ->
  scanInt (OrderUID message) = None ->
  Permutation rows (messages (fst (saveMessageToDB message db true))) ->
  snd (restoreRows cache rows) <> None /\
  exists before after,
    rows = (before ++ mkRow (OrderUID message) body :: after)%list /\
    fst (restoreRows cache rows) = fst (restoreRows cache before).
Proof.
  intros Hbody Hscan Hperm.
  rewrite (saveMessageToDB_ok _ _ _ Hbody) in Hperm. cbn [fst messages] in Hperm.
  assert (Hin : In (mkRow (OrderUID message) body) rows).
  { eapply Permutation_in; [symmetry; exact Hperm |].
    apply in_app_iff. right. left. reflexivity. }
  apply in_split in Hin as (before & after & ->).
  assert (Hbad : readRow (mkRow (OrderUID message) body) = inl (ErrScan (OrderUID message))).
  { unfold readRow. cbn [row_id]. rewrite Hscan. reflexivity. }
  destruct (restoreRows_bad_row before after _ _ cache Hbad) as [Hfst Hsnd].
  split; [exact Hsnd |]. exists before, after. split; [reflexivity | exact Hfst].
Qed.

(** X6: a message whose order identifier is the text of an integer and
    whose insert succeeds is recovered from the table, in whatever order
    the rows are enumerated, under the decimal form of that integer and
    as the message its stored encoding decodes to, provided that the
    rows already in the table load and none of them has the same integer
    identifier; that key is the order identifier itself when the
    identifier is in decimal form already. *)
Theorem persisted_row_recovers (cache : Cache) (db : DB)
    (message message' : Message) (body : string) (id : Z) (rows : list Row) :
  marshal message = Some body ->
  unmarshal body = Some message' ->
  scanInt (OrderUID message) = Some id ->
  Forall loads (messages db) ->
  Forall (fun other => scanInt (row_id other) <> Some id) (messages db) ->
  Permutation rows (messages (fst (saveMessageToDB message db true))) ->
  snd (restoreRows cache rows) = None /\
  get (fst (restoreRows cache rows)) (strconv.Itoa id) = Some message' /\
  (canonical (OrderUID message) = true -> strconv.Itoa id = OrderUID message).
Proof.
  intros Hbody Hback Hscan Hall Hothers Hperm.
  rewrite (saveMessageToDB_ok _ _ _ Hbody) in Hperm. cbn [fst messages] in Hperm.
  set (row := mkRow (OrderUID message) body) in *.
  assert (Hrow : readRow row = inr (strconv.Itoa id, message')).
  { unfold readRow. cbn [row_id row_data row]. rewrite Hscan, Hback. reflexivity. }
  assert (Hin : In row rows).
  { eapply Permutation_in; [symmetry; exact Hperm |].
    apply in_app_iff. right. left. reflexivity. }
  apply in_split in Hin as (before & after & ->).
  assert (Hrest : Permutation (messages db) (before ++ after)).
  { apply Permutation_cons_app_inv with (a := row).
    etransitivity; [| symmetry; exact Hperm].
    apply Permutation_cons_append. }
  assert (Hloads : Forall loads (before ++ row :: after)).
  { eapply Permutation_Forall; [symmetry; exact Hperm |].
    apply Forall_app. split; [exact Hall |].
    constructor; [eexists; exact Hrow | constructor]. }
  assert (Hafter : Forall (fun later => rowKey later <> Some (strconv.Itoa id)) after).
  { assert (Hba : Forall (fun other => scanInt (row_id other) <> Some id) (before ++ after))
      by (eapply Permutation_Forall; eassumption).
    apply Forall_app in Hba as [_ Hba].
    eapply Forall_impl; [exact Hba |].
    intros other Hother.
    apply (rowKey_scanInt row id other); [exact Hscan | exact Hother]. }
  rewrite (restoreRows_all_load _ cache Hloads). cbn [fst snd].
  split; [reflexivity |]. split.
  - by apply get_fold_storeRow_last.
  - unfold canonical, scanInt in *. rewrite Hscan.
    intros Heq. by apply String.eqb_eq.
Qed.

(** *** Ingestion *)

(** X7: two messages with the same order identifier, both inserted:
    the cache holds the second one only, and the table has a row for
    each, in the order of arrival. *)
Theorem reingestion_overwrites_and_appends (cache : Cache) (db : DB)
    (data1 data2 : string) (message1 message2 : Message) (body1 body2 : string) :
  unmarshal data1 = Some message1 ->
  unmarshal data2 = Some message2 ->
  OrderUID message1 = OrderUID message2 ->
  marshal message1 = Some body1 ->
  marshal message2 = Some body2 ->
  let first := onMessage cache db data1 true in
  let second := onMessage (fst (fst first)) (snd (fst first)) data2 true in
  fst (fst second) = put cache message2 /\
  messages (snd (fst second)) =
    (messages db ++ [mkRow (OrderUID message1) body1; mkRow (OrderUID message1) body2])%list.
Proof.
  intros H1 H2 Hsame Hb1 Hb2 first second.
  assert (Hfirst : first = (put cache message1,
                            mkDB (messages db ++ [mkRow (OrderUID message1) body1]), [])).
  { subst first. unfold onMessage, receive, persist.
    rewrite H1, (saveMessageToDB_ok _ _ _ Hb1). reflexivity. }
  subst second. rewrite Hfirst. cbn [fst snd].
  unfold onMessage, receive, persist.
  rewrite H2, (saveMessageToDB_ok _ _ _ Hb2). cbn [fst snd messages].
  split.
  - unfold put, store. cbn [data]. rewrite Hsame. f_equal. apply insert_insert_eq.
  - rewrite <- app_assoc, Hsame. reflexivity.
Qed.

(** X8: a payload that does not decode is dropped with one log line:
    the cache and the table stay as they are, the process keeps running,
    and the next message that decodes is written to the cache. *)
Theorem malformed_message_is_dropped (p : Process) (bad good : string)
    (message : Message) :
  exited p = false ->
  subAt p = Subscribed None ->
  unmarshal bad = None ->
  unmarshal good = Some message ->
  exists p',
    run p [Deliver bad; Deliver good] = Some p' /\
    p_cache p' = put (p_cache p) message /\
    p_db p' = p_db p /\
    p_log p' = (p_log p ++ ["Failed to unmarshal message:"])%list /\
    subAt p' = Subscribed (Some message) /\
    exited p' = false.
Proof.
  intros Hrun Hsub Hbad Hgood. eexists. split.
  - cbn [run]. unfold step at 1. rewrite Hrun. unfold stepSub at 1.
    rewrite Hsub. unfold receive at 1. rewrite Hbad.
    unfold step, setSub. cbn [exited subAt]. rewrite Hrun.
    unfold stepSub. cbn [subAt p_cache]. unfold receive. rewrite Hgood.
    reflexivity.
  - cbn. rewrite app_nil_r. auto.
Qed.

(** *** The running process *)

Ltac step_cases p a Hstep :=
  unfold step, stepMain, stepSub in Hstep;
  destruct (exited p) eqn:?; [discriminate |];
  destruct a as [[] | | [] | ? | [] | ? | [] | ? | ?];
  destruct (mainAt p) eqn:?; destruct (subAt p) as [| | | | [? |]] eqn:?;
  try discriminate;
  try match type of Hstep with
      | context [restoreCacheFromDB ?c ?b ?x] =>
          destruct (restoreCacheFromDB c b x) as [[? ?] [? |]] eqn:?
      | context [receive ?c ?x] => destruct (receive c x) as [[? ?] ?] eqn:?
      | context [persist ?m ?b ?x] => destruct (persist m b x) as [? ?] eqn:?
      end;
  injection Hstep as <-.

(** What a step can do to the cache. *)
Lemma step_cache (p p' : Process) (a : action) :
  step p a = Some p' ->
  p_cache p' = p_cache p \/
  (exists query_ok,
     p_cache p' = fst (fst (restoreCacheFromDB (p_cache p) (p_db p) query_ok))) \/
  (exists message, p_cache p' = put (p_cache p) message).
Proof.
  intros Hstep. step_cases p a Hstep; cbn; auto.
  all: try (right; left; eexists;
            match goal with H : restoreCacheFromDB _ _ _ = _ |- _ => rewrite H end;
            reflexivity).
  all: match goal with
       | H : receive _ ?d = _ |- _ =>
           unfold receive in H; destruct (unmarshal d) as [message |];
           injection H as <- <- <-; eauto
       end.
Qed.

Lemma store_keeps_keys (cache : Cache) (key key' : string) (message : Message) :
  is_Some (get cache key') -> is_Some (get (store cache key message) key').
Proof.
  intros Hsome. destruct (decide (key = key')) as [-> | Hne].
  - rewrite get_store_eq. eauto.
  - by rewrite get_store_ne.
Qed.

Lemma restoreRows_keeps_keys (rows : list Row) :
  forall cache key,
    is_Some (get cache key) -> is_Some (get (fst (restoreRows cache rows)) key).
Proof.
  induction rows as [| row rows IH]; intros cache key Hsome; [exact Hsome |].
  rewrite restoreRows_cons.
  destruct (readRow row) as [err | [k m]]; [exact Hsome |].
  apply IH. by apply store_keeps_keys.
Qed.

(** X9: the running process never removes a key from the cache: what
    a lookup finds at some point, it finds (possibly replaced) at every
    later point. *)
Theorem run_keeps_keys (schedule : list action) :
  forall (p p' : Process) (key : string),
    run p schedule = Some p' ->
    is_Some (get (p_cache p) key) ->
    is_Some (get (p_cache p') key).
Proof.
  induction schedule as [| a schedule IH]; intros p p' key Hrun Hsome.
  - injection Hrun as <-. exact Hsome.
  - cbn [run] in Hrun. destruct (step p a) as [p1 |] eqn:Hstep; [| discriminate].
    eapply IH; [exact Hrun |].
    destruct (step_cache _ _ _ Hstep) as [-> | [[q ->] | [message ->]]].
    + exact Hsome.
    + rewrite restoreCacheFromDB_cache. destruct q; [| exact Hsome].
      by apply restoreRows_keeps_keys.
    + by apply store_keeps_keys.
Qed.

Lemma step_exit (p p' : Process) (a : action) :
  step p a = Some p' -> exited p' = true -> isFatal a.
Proof.
  intros Hstep. unfold isFatal.
  step_cases p a Hstep; cbn; intros Hex; auto; congruence.
Qed.

(** X10: the process exits only through a failed connection to the
    database or to the message stream, a failed subscription or a failed
    [ListenAndServe]: no request, message, failed insert or failed
    recovery ends it, and the failing step is its last. *)
Theorem exit_only_on_failed_connection (db : DB) (schedule : list action) (p : Process) :
  run (start db) schedule = Some p ->
  exited p = true ->
  exists before a, schedule = (before ++ [a])%list /\ isFatal a.
Proof.
  induction schedule as [| a0 done _] using rev_ind; intros Hrun Hexit.
  - injection Hrun as <-. discriminate.
  - rewrite run_app in Hrun.
    destruct (run (start db) done) as [p0 |]; [| discriminate].
    cbn [run] in Hrun. destruct (step p0 a0) as [p1 |] eqn:Hstep; [| discriminate].
    injection Hrun as <-. exists done, a0. split; [reflexivity |].
    eapply step_exit; eassumption.
Qed.

Lemma step_table (p p' : Process) (a : action) :
  step p a = Some p' ->
  exists added,
    messages (p_db p') = (messages (p_db p) ++ added)%list /\ Forall savedRow added.
Proof.
  intros Hstep.
  step_cases p a Hstep; cbn; try (exists []; rewrite app_nil_r; split; [reflexivity | constructor]).
  all: match goal with
       | H : persist ?m _ ?e = _ |- _ =>
           unfold persist, saveMessageToDB in H;
           destruct (marshal m) as [body |] eqn:Hbody; [destruct e |];
           injection H as <- <-;
           try (exists []; rewrite app_nil_r; split; [reflexivity | constructor]);
           exists [mkRow (OrderUID m) body]; split; [reflexivity |];
           constructor; [| constructor]; exists m; split; [reflexivity | exact Hbody]
       end.
Qed.

(** X11: the process only appends to the table: the rows it starts
    with stay as they are, in their order, and each row it adds is the
    order identifier of a message with the encoding of that message. *)
Theorem table_append_only (schedule : list action) :
  forall (p p' : Process),
    run p schedule = Some p' ->
    exists added,
      messages (p_db p') = (messages (p_db p) ++ added)%list /\ Forall savedRow added.
Proof.
  induction schedule as [| a schedule IH]; intros p p' Hrun.
  - injection Hrun as <-. exists []. rewrite app_nil_r. split; [reflexivity | constructor].
  - cbn [run] in Hrun. destruct (step p a) as [p1 |] eqn:Hstep; [| discriminate].
    destruct (step_table _ _ _ Hstep) as (added1 & Heq1 & Hall1).
    destruct (IH _ _ Hrun) as (added2 & Heq2 & Hall2).
    exists (added1 ++ added2)%list. split.
    + rewrite Heq2, Heq1, app_assoc. reflexivity.
    + apply Forall_app. split; assumption.
Qed.

Lemma handler_empty (r : Request) :
  clientError (getDataFromCacheHandler newCache r).
Proof.
  unfold clientError, getDataFromCacheHandler. cbv zeta.
  destruct (strconv.Atoi _) as [id |]; [| right; reflexivity].
  unfold get, newCache. cbn [data]. rewrite lookup_empty. left. reflexivity.
Qed.

(** X12: as long as the recovery has not run, the cache is empty and
    every request served got "Message not found" or "Invalid ID",
    whatever the table holds. *)
Theorem no_record_before_recovery (db : DB) (schedule : list action) :
  forall p : Process,
    run (start db) schedule = Some p ->
    (forall query_ok, ~ In (Restore query_ok) schedule) ->
    beforeRestore (subAt p) /\ p_cache p = newCache /\
    Forall clientError (p_responses p).
Proof.
  induction schedule as [| a schedule IH] using rev_ind; intros p Hrun Hnone.
  - injection Hrun as <-. cbn. unfold beforeRestore. auto.
  - rewrite run_app in Hrun.
    destruct (run (start db) schedule) as [p0 |]; [| discriminate].
    cbn [run] in Hrun. destruct (step p0 a) as [p1 |] eqn:Hstep; [| discriminate].
    injection Hrun as <-.
    destruct (IH p0 eq_refl) as (Hpc & Hcache & Hresp).
    { intros q Hin. apply (Hnone q). apply in_app_iff. left. exact Hin. }
    assert (Hnot : forall q, a <> Restore q).
    { intros q ->. apply (Hnone q). apply in_app_iff. right. left. reflexivity. }
    unfold beforeRestore in *.
    step_cases p0 a Hstep; cbn;
      try (exfalso; eapply Hnot; reflexivity);
      try (destruct Hpc as [Hpc | [Hpc | Hpc]]; discriminate);
      repeat split; auto.
    all: apply Forall_app; split; [exact Hresp |];
      constructor; [| constructor]; rewrite Hcache; apply handler_empty.
Qed.

Lemma run_restored (db : DB) (done : list action) :
  forall p : Process,
    run (start db) done = Some p ->
    (exists query_ok, In (Restore query_ok) done) ->
    ~ beforeRestore (subAt p).
Proof.
  induction done as [| a done IH] using rev_ind; intros p Hrun [q Hq].
  - destruct Hq.
  - rewrite run_app in Hrun.
    destruct (run (start db) done) as [p0 |]; [| discriminate].
    cbn [run] in Hrun. destruct (step p0 a) as [p1 |] eqn:Hstep; [| discriminate].
    injection Hrun as <-.
    apply in_app_iff in Hq as [Hq | [-> | []]].
    + specialize (IH p0 eq_refl (ex_intro _ q Hq)).
      unfold beforeRestore in *.
      step_cases p0 a Hstep; cbn; intros [Hpc | [Hpc | Hpc]];
        first [congruence | apply IH; auto].
    + unfold beforeRestore, step, stepSub in *.
      destruct (exited p0); [discriminate |].
      destruct (subAt p0) as [| | | | [m |]]; try discriminate.
      destruct (restoreCacheFromDB (p_cache p0) (p_db p0) q) as [[c l] [err |]];
        injection Hstep as <-; cbn; intros [Hpc | [Hpc | Hpc]]; discriminate.
Qed.

Lemma restore_not_behind (db : DB) (before after : list action) (q : bool) (p : Process) :
  run (start db) (before ++ Restore q :: after) = Some p ->
  forall q', ~ In (Restore q') before.
Proof.
  intros Hrun q' Hin. rewrite run_app in Hrun.
  destruct (run (start db) before) as [p0 |] eqn:Hbefore; [| discriminate].
  cbn [run] in Hrun. destruct (step p0 (Restore q)) as [p1 |] eqn:Hstep; [| discriminate].
  apply (run_restored db before p0 Hbefore (ex_intro _ q' Hin)).
  apply step_enabled in Hstep. cbn in Hstep. unfold beforeRestore. auto.
Qed.

(** X13: the recovery runs at most once in the life of the process: a
    schedule has no second [restoreCacheFromDB], so what the messages
    write to the cache is never overwritten from the table. *)
Theorem recovery_runs_once (db : DB) (before after : list action) (q : bool) (p : Process) :
  run (start db) (before ++ Restore q :: after) = Some p ->
  forall q', ~ In (Restore q') before /\ ~ In (Restore q') after.
Proof.
  intros Hrun q'. split; [by eapply restore_not_behind |].
  intros Hin. apply in_split in Hin as (a1 & a2 & ->).
  replace (before ++ Restore q :: a1 ++ Restore q' :: a2)%list
    with ((before ++ Restore q :: a1) ++ Restore q' :: a2)%list in Hrun
    by (rewrite <- app_assoc; reflexivity).
  eapply (restore_not_behind _ _ _ _ _ Hrun q).
  apply in_app_iff. right. left. reflexivity.
Qed.

Lemma keyed_store (cache : Cache) (key : string) (message : Message) :
  keyed cache ->
  key = OrderUID message \/ canonical key = true ->
  keyed (store cache key message).
Proof.
  intros Hcache Hkey key' message' Hget.
  destruct (decide (key = key')) as [<- | Hne].
  - rewrite get_store_eq in Hget. injection Hget as <-. exact Hkey.
  - rewrite get_store_ne in Hget by exact Hne. eauto.
Qed.

Lemma keyed_restoreRows (rows : list Row) :
  forall cache, keyed cache -> keyed (fst (restoreRows cache rows)).
Proof.
  induction rows as [| row rows IH]; intros cache Hcache; [exact Hcache |].
  rewrite restoreRows_cons. unfold readRow.
  destruct (scanInt (row_id row)) as [id |] eqn:Hid; [| exact Hcache].
  destruct (unmarshal (row_data row)) as [m |]; [| exact Hcache].
  apply IH, keyed_store; [exact Hcache |].
  right. apply Itoa_canonical. eapply Atoi_range. exact Hid.
Qed.

(** X14: every key of a cache the service can hold is the order
    identifier of the record stored under it (an ingested record) or the
    decimal form of an integer (a recovered one). *)
Theorem reachable_keys (cache : Cache) : reachable cache -> keyed cache.
Proof.
  induction 1 as [| cache db query_ok _ IH | cache db msgData exec_ok _ IH].
  - intros key message Hget. unfold get, newCache in Hget. cbn in Hget.
    by rewrite lookup_empty in Hget.
  - rewrite restoreCacheFromDB_cache. destruct query_ok; [| exact IH].
    by apply keyed_restoreRows.
  - rewrite onMessage_cache.
    destruct (unmarshal msgData) as [m |]; [| exact IH].
    apply keyed_store; [exact IH | left; reflexivity].
Qed.

End Properties.

(** * The properties on the sample codec *)

Lemma sample_loads (id : string) (uid : string) :
  is_Some (scanInt id) -> is_Some (sample.decode (sample.payload uid)) ->
  @loads sample.codec (mkRow id (sample.payload uid)).
Proof.
  intros [n Hn] [m Hm]. unfold loads, readRow. cbn [row_id row_data unmarshal sample.codec].
  rewrite Hn, Hm. eauto.
Qed.

(** C1, as stated, fails: the row with identifier ["abc123"] and a
    payload that decodes ends recovery with a scan error, nothing is
    loaded, and the lookup of ["abc123"] is answered "Invalid ID". *)
Lemma unparsable_identifier_not_recovered :
  let row := mkRow "abc123" (sample.payload "abc123") in
  let request := mkRequest [("id", "abc123")] in
  let restored := @restoreCacheFromDB sample.codec newCache (mkDB [row]) true in
  @unmarshal sample.codec (row_data row) = Some (withOrderUID "abc123" zeroMessage) /\
  restored = (newCache, [], Some (ErrScan "abc123")) /\
  @getDataFromCacheHandler sample.codec (fst (fst restored)) request =
    http_Error "Invalid ID" StatusBadRequest.
Proof. vm_compute. auto. Qed.

Lemma recovered_row_is_served_witness :
  let first := mkRow "1" (sample.payload "1") in
  let row := mkRow "123" (sample.payload "123") in
  let later := mkRow "x" "not json" in
  let message := withOrderUID "123" zeroMessage in
  let request := mkRequest [("id", "123")] in
  let restored :=
    @restoreCacheFromDB sample.codec newCache (mkDB [first; row; later]) true in
  Forall (@loads sample.codec) [first] /\
  scanInt (row_id row) = Some 123 /\
  @unmarshal sample.codec (row_data row) = Some message /\
  @marshal sample.codec message = Some (sample.render "123") /\
  Forall (fun other => scanInt (row_id other) <> Some 123) [later] /\
  Get (URLQuery request) "id" = row_id row /\
  @getDataFromCacheHandler sample.codec (fst (fst restored)) request =
    mkResponse StatusOK "application/json" (sample.render "123").
Proof.
  intros first row later message request restored.
  assert (Hfirst : Forall (@loads sample.codec) [first]).
  { constructor; [| constructor]. apply sample_loads; vm_compute; eauto. }
  assert (Hlater : Forall (fun other => scanInt (row_id other) <> Some 123) [later]).
  { constructor; [vm_compute; discriminate | constructor]. }
  split; [exact Hfirst |]. split; [reflexivity |]. split; [reflexivity |].
  split; [reflexivity |]. split; [exact Hlater |]. split; [reflexivity |].
  exact (@recovered_row_is_served sample.codec newCache (mkDB [first; row; later])
           [first] [later] row 123 message (sample.render "123") request
           eq_refl Hfirst eq_refl eq_refl eq_refl Hlater eq_refl).
Defined.

(** C2, as stated, fails: with an undecodable first row, recovery
    returns the decode error and the second row, which decodes and has
    an identifier of its own, is not in the cache. *)
Lemma bad_row_aborts_recovery :
  let bad := mkRow "1" "not json" in
  let good := mkRow "2" (sample.payload "2") in
  let restored := @restoreCacheFromDB sample.codec newCache (mkDB [bad; good]) true in
  @readRow sample.codec bad = inl (ErrUnmarshal "not json") /\
  @readRow sample.codec good = inr ("2", withOrderUID "2" zeroMessage) /\
  restored = (newCache, [], Some (ErrUnmarshal "not json")) /\
  get (fst (fst restored)) "2" = None /\
  @getDataFromCacheHandler sample.codec (fst (fst restored)) (mkRequest [("id", "2")]) =
    http_Error "Message not found" StatusNotFound.
Proof. vm_compute. auto 6. Qed.

Lemma recovery_stops_at_first_bad_row_witness :
  let first := mkRow "1" (sample.payload "1") in
  let bad := mkRow "2" "not json" in
  let last := mkRow "3" (sample.payload "3") in
  Forall (@loads sample.codec) [first] /\
  @readRow sample.codec bad = inl (ErrUnmarshal "not json") /\
  @restoreRows sample.codec newCache ([first] ++ bad :: [last]) =
    (fst (@restoreRows sample.codec newCache [first]), Some (ErrUnmarshal "not json")).
Proof.
  intros first bad last.
  assert (Hfirst : Forall (@loads sample.codec) [first]).
  { constructor; [| constructor]. apply sample_loads; vm_compute; eauto. }
  split; [exact Hfirst |]. split; [reflexivity |].
  apply (@recovery_stops_at_first_bad_row sample.codec newCache [first] [last] bad
           (ErrUnmarshal "not json") Hfirst eq_refl).
Defined.

(** C4, as stated, fails: the payload [{}] decodes, and the row
    submitted for it carries the full encoding of the zero message, not
    the two bytes received. *)
Lemma persisted_payload_differs :
  let result := @onMessage sample.codec newCache (mkDB []) "{}" true in
  @unmarshal sample.codec "{}" = Some zeroMessage /\
  messages (snd (fst result)) = [mkRow "" (sample.render "")] /\
  row_data (mkRow "" (sample.render "")) <> "{}".
Proof.
  split; [reflexivity |]. split; [vm_compute; reflexivity |].
  vm_compute. discriminate.
Qed.

Lemma persisted_row_is_reencoding_witness :
  let message := withOrderUID "42" zeroMessage in
  @unmarshal sample.codec (sample.payload "42") = Some message /\
  @marshal sample.codec message = Some (sample.render "42") /\
  @onMessage sample.codec newCache (mkDB []) (sample.payload "42") true =
    (put newCache message, mkDB ([] ++ [mkRow "42" (sample.render "42")]), []).
Proof.
  intros message. split; [reflexivity |]. split; [reflexivity |].
  apply (@persisted_row_is_reencoding sample.codec newCache (mkDB [])
           (sample.payload "42") message (sample.render "42") eq_refl eq_refl).
Defined.



Lemma put_get_witness :
  let R := withOrderUID "a" zeroMessage in
  let R' := withOrderUID "b" zeroMessage in
  let writes := [(OrderUID R, R); ("7", R')] in
  ~ In "c" (map fst writes) /\
  get (put newCache R) (OrderUID R) = Some R /\
  get (fold_left (fun c w => store c (fst w) (snd w)) writes newCache) "c" = None.
Proof.
  intros R R' writes.
  assert (Hfresh : ~ In "c" (map fst writes)).
  { cbn. intros [Ha | [Hb | []]]; discriminate. }
  split; [exact Hfresh |].
  pose proof (put_get writes newCache R "c" Hfresh) as (H1 & _ & H3).
  split; [exact H1 | exact H3].
Defined.

(** C7, as stated, fails: two rows with different identifiers, one of
    which does not decode, leave the first row in the cache in one order
    of enumeration and nothing in the other. *)
Lemma recovery_depends_on_order :
  let good := mkRow "1" (sample.payload "1") in
  let bad := mkRow "2" "not json" in
  Permutation [good; bad] [bad; good] /\
  NoDup (map row_id [good; bad]) /\
  get (fst (@restoreRows sample.codec newCache [good; bad])) "1" =
    Some (withOrderUID "1" zeroMessage) /\
  get (fst (@restoreRows sample.codec newCache [bad; good])) "1" = None /\
  @restoreRows sample.codec newCache [good; bad] <>
  @restoreRows sample.codec newCache [bad; good].
Proof.
  intros good bad. split; [apply perm_swap |]. split.
  - apply (bool_decide_unpack _). vm_compute. reflexivity.
  - assert (H1 : get (fst (@restoreRows sample.codec newCache [good; bad])) "1" =
                 Some (withOrderUID "1" zeroMessage)) by (vm_compute; reflexivity).
    assert (H2 : get (fst (@restoreRows sample.codec newCache [bad; good])) "1" = None)
      by (vm_compute; reflexivity).
    split; [exact H1 |]. split; [exact H2 |].
    intros Heq. rewrite Heq, H2 in H1. discriminate.
Qed.

Lemma recovery_order_independent_witness :
  let one := mkRow "1" (sample.payload "1") in
  let two := mkRow "2" (sample.payload "2") in
  Permutation [one; two] [two; one] /\
  Forall (@loads sample.codec) [one; two] /\
  NoDup (map (fun row => scanInt (row_id row)) [one; two]) /\
  @restoreRows sample.codec newCache [one; two] =
  @restoreRows sample.codec newCache [two; one].
Proof.
  intros one two.
  assert (Hperm : Permutation [one; two] [two; one]) by apply perm_swap.
  assert (Hall : Forall (@loads sample.codec) [one; two]).
  { repeat constructor; apply sample_loads; vm_compute; eauto. }
  assert (Hnodup : NoDup (map (fun row => scanInt (row_id row)) [one; two])).
  { apply (bool_decide_unpack _). vm_compute. reflexivity. }
  split; [exact Hperm |]. split; [exact Hall |]. split; [exact Hnodup |].
  exact (proj1 (@recovery_order_independent sample.codec newCache _ _ Hperm Hall Hnodup)).
Defined.

(** C3, as stated, fails: the schedule in which [main] reaches
    [ListenAndServe] before the other goroutine has run is a run of the
    process; its query is answered "not found" for a row that is in the
    table, no recovery comes before it, and the same query is answered
    with the record once the recovery has run. *)
Lemma query_served_before_recovery :
  let db := mkDB [mkRow "1" (sample.payload "1")] in
  let request := mkRequest [("id", "1")] in
  let early := [ConnectToDB true; Go; ListenAndServe true; Serve request] in
  let later := [NatsConnect true; Restore true; Serve request] in
  p_responses <$> @run sample.codec (start db) early =
    Some [http_Error "Message not found" StatusNotFound] /\
  ~ preceded isRestore isServe early /\
  p_responses <$> @run sample.codec (start db) (early ++ later) =
    Some [http_Error "Message not found" StatusNotFound;
          mkResponse StatusOK "application/json" (sample.render "1")].
Proof.
  intros db request early later.
  split; [vm_compute; reflexivity |]. split; [| vm_compute; reflexivity].
  intros Hpre.
  destruct (Hpre [ConnectToDB true; Go; ListenAndServe true] (Serve request) []
              eq_refl (ex_intro _ request eq_refl)) as (a & Hin & q & ->).
  cbn in Hin. destruct Hin as [H | [H | [H | []]]]; discriminate.
Qed.

Lemma startup_order_witness :
  let db := mkDB [mkRow "1" (sample.payload "1")] in
  let schedule :=
    [ConnectToDB true; Go; NatsConnect true; ListenAndServe true; Restore true;
     Subscribe true; Deliver (sample.payload "2"); Serve (mkRequest [("id", "2")]);
     Persist true] in
  is_Some (@run sample.codec (start db) schedule) /\
  preceded isRestore isDeliver schedule /\
  preceded isListening isServe schedule.
Proof.
  intros db schedule.
  destruct (@run sample.codec (start db) schedule) as [p |] eqn:Hrun.
  - split; [eauto |].
    pose proof (@startup_order sample.codec db schedule p Hrun)
      as (_ & _ & _ & _ & _ & H6 & _ & H8).
    split; [exact H6 | exact H8].
  - vm_compute in Hrun. discriminate.
Defined.

(** C8, as stated, fails: the payload with identifier ["7"] and a
    creation date at zone offset [+24:00] decodes and is cached by
    ingestion; its record does not encode, and the lookup of ["7"] is
    answered "Failed to marshal data" (500). *)
Lemma unencodable_record_answers_500 :
  let result := @onMessage zoned.codec newCache (mkDB []) (zoned.payload "7") true in
  let cache := fst (fst result) in
  @unmarshal zoned.codec (zoned.payload "7") =
    Some (zoned.withDateCreated zoned.dateCreated (withOrderUID "7" zeroMessage)) /\
  @reachable zoned.codec cache /\
  get cache "7" =
    Some (zoned.withDateCreated zoned.dateCreated (withOrderUID "7" zeroMessage)) /\
  @getDataFromCacheHandler zoned.codec cache (mkRequest [("id", "7")]) =
    http_Error "Failed to marshal data" StatusInternalServerError.
Proof.
  intros result cache. split; [vm_compute; reflexivity |]. split.
  - apply reachable_message, reachable_new.
  - split; vm_compute; reflexivity.
Qed.

(** C9, as stated, fails: the payload [{}] decodes to a message whose
    order identifier is empty, and ingestion stores it under the empty
    key; recovery stores the same message under the key of its row. *)
Lemma empty_order_uid_is_cached :
  let ingested := fst (fst (@onMessage sample.codec newCache (mkDB []) "{}" true)) in
  let restored := fst (@restoreRows sample.codec newCache [mkRow "7" "{}"]) in
  get ingested "" = Some zeroMessage /\
  get restored "7" = Some zeroMessage /\
  OrderUID zeroMessage = "".
Proof. vm_compute. auto. Qed.

Lemma empty_key_only_from_empty_order_uid_witness :
  let db := mkDB [mkRow "7" "{}"] in
  get newCache "" = None /\
  get (fst (fst (@restoreCacheFromDB sample.codec newCache db true))) "" = None.
Proof.
  intros db.
  assert (Hnone : get newCache "" = None) by reflexivity.
  split; [exact Hnone |].
  exact (proj1 (@empty_key_only_from_empty_order_uid sample.codec newCache db
                  (sample.payload "7") true Hnone)).
Defined.

Lemma handler_canonical_id_witness :
  let cache := put newCache (withOrderUID "7" zeroMessage) in
  let padded := mkRequest [("id", "007")] in
  let signed := mkRequest [("id", "+7")] in
  strconv.Atoi (Get (URLQuery padded) "id") = Some 7 /\
  strconv.Atoi (Get (URLQuery signed) "id") = Some 7 /\
  @getDataFromCacheHandler sample.codec cache padded =
    mkResponse StatusOK "application/json" (sample.render "7") /\
  @getDataFromCacheHandler sample.codec cache signed =
    mkResponse StatusOK "application/json" (sample.render "7") /\
  @getDataFromCacheHandler sample.codec cache (mkRequest [("id", "7")]) =
    mkResponse StatusOK "application/json" (sample.render "7").
Proof.
  intros cache padded signed.
  split; [reflexivity |]. split; [reflexivity |].
  pose proof (@handler_canonical_id sample.codec cache padded signed 7 eq_refl eq_refl)
    as (H1 & H2 & H3 & _).
  split; [exact H1 |]. split; [exact H2 | exact H3].
Defined.

(** ** The further properties on the sample codec *)

Lemma non_canonical_key_never_served_witness :
  let message := withOrderUID "order-1" zeroMessage in
  let request := mkRequest [("id", "order-1")] in
  canonical "order-1" = false /\
  @getDataFromCacheHandler sample.codec (store newCache "order-1" message) request =
  @getDataFromCacheHandler sample.codec newCache request.
Proof.
  intros message request. split; [reflexivity |].
  apply (@non_canonical_key_never_served sample.codec newCache "order-1" message request
           eq_refl).
Defined.

Lemma decimal_parameter_reads_its_key_witness :
  let request := mkRequest [("id", "-5")] in
  strconv.minInt <= -5 <= strconv.maxInt /\
  Get (URLQuery request) "id" = strconv.Itoa (-5) /\
  @getDataFromCacheHandler sample.codec newCache request =
    http_Error "Message not found" StatusNotFound.
Proof.
  intros request.
  assert (Hrange : strconv.minInt <= -5 <= strconv.maxInt) by (vm_compute; split; discriminate).
  split; [exact Hrange |]. split; [reflexivity |].
  exact (@decimal_parameter_reads_its_key sample.codec newCache request (-5) Hrange eq_refl).
Defined.

Lemma missing_id_is_invalid_witness :
  let request := mkRequest [("order", "7")] in
  Forall (fun kv => fst kv <> "id") (URLQuery request) /\
  @getDataFromCacheHandler sample.codec (put newCache (withOrderUID "7" zeroMessage)) request =
    http_Error "Invalid ID" StatusBadRequest.
Proof.
  intros request.
  assert (Hmissing : Forall (fun kv : string * string => fst kv <> "id") (URLQuery request)).
  { repeat constructor. discriminate. }
  split; [exact Hmissing |].
  apply (@missing_id_is_invalid sample.codec _ request Hmissing).
Defined.

Lemma recovery_leaves_other_keys_witness :
  let cache := put newCache (withOrderUID "7" zeroMessage) in
  let rows :=
    [mkRow "1" (sample.payload "1"); mkRow "2" "not json"; mkRow "7" (sample.payload "9")] in
  Forall (fun row => @rowKey sample.codec row <> Some "7") (@loadedPrefix sample.codec rows) /\
  get (fst (@restoreRows sample.codec cache rows)) "7" = get cache "7".
Proof.
  intros cache rows.
  assert (Hrows : Forall (fun row => @rowKey sample.codec row <> Some "7")
                    (@loadedPrefix sample.codec rows)).
  { repeat constructor; vm_compute; discriminate. }
  split; [exact Hrows |].
  apply (@recovery_leaves_other_keys sample.codec rows cache "7" Hrows).
Defined.

Lemma non_integer_order_uid_blocks_recovery_witness :
  let message := withOrderUID "order-1" zeroMessage in
  let db := mkDB [mkRow "2" (sample.payload "2")] in
  let rows := [mkRow "order-1" (sample.render "order-1"); mkRow "2" (sample.payload "2")] in
  @marshal sample.codec message = Some (sample.render "order-1") /\
  scanInt (OrderUID message) = None /\
  Permutation rows (messages (fst (@saveMessageToDB sample.codec message db true))) /\
  snd (@restoreRows sample.codec newCache rows) <> None.
Proof.
  intros message db rows.
  assert (Hperm : Permutation rows
                    (messages (fst (@saveMessageToDB sample.codec message db true)))).
  { apply perm_swap. }
  split; [reflexivity |]. split; [reflexivity |]. split; [exact Hperm |].
  exact (proj1 (@non_integer_order_uid_blocks_recovery sample.codec newCache db message
                  (sample.render "order-1") rows eq_refl eq_refl Hperm)).
Defined.

Lemma persisted_row_recovers_witness :
  let message := withOrderUID "007" zeroMessage in
  let db := mkDB [mkRow "2" (sample.payload "2")] in
  let rows := [mkRow "007" (sample.render "007"); mkRow "2" (sample.payload "2")] in
  @marshal stored.codec message = Some (sample.render "007") /\
  @unmarshal stored.codec (sample.render "007") = Some message /\
  scanInt (OrderUID message) = Some 7 /\
  Forall (@loads stored.codec) (messages db) /\
  Forall (fun other => scanInt (row_id other) <> Some 7) (messages db) /\
  Permutation rows (messages (fst (@saveMessageToDB stored.codec message db true))) /\
  get (fst (@restoreRows stored.codec newCache rows)) (strconv.Itoa 7) = Some message.
Proof.
  intros message db rows.
  assert (Hback : @unmarshal stored.codec (sample.render "007") = Some message)
    by (vm_compute; reflexivity).
  assert (Hall : Forall (@loads stored.codec) (messages db)).
  { constructor; [| constructor]. eexists. vm_compute. reflexivity. }
  assert (Hothers : Forall (fun other => scanInt (row_id other) <> Some 7) (messages db)).
  { constructor; [vm_compute; discriminate | constructor]. }
  assert (Hperm : Permutation rows
                    (messages (fst (@saveMessageToDB stored.codec message db true)))).
  { apply perm_swap. }
  split; [reflexivity |]. split; [exact Hback |]. split; [reflexivity |].
  split; [exact Hall |]. split; [exact Hothers |]. split; [exact Hperm |].
  exact (proj1 (proj2 (@persisted_row_recovers stored.codec newCache db message message
                         (sample.render "007") 7 rows eq_refl Hback eq_refl
                         Hall Hothers Hperm))).
Defined.

Lemma reingestion_overwrites_and_appends_witness :
  let message := withOrderUID "5" zeroMessage in
  let data := sample.payload "5" in
  let first := @onMessage sample.codec newCache (mkDB []) data true in
  let second := @onMessage sample.codec (fst (fst first)) (snd (fst first)) data true in
  @unmarshal sample.codec data = Some message /\
  @marshal sample.codec message = Some (sample.render "5") /\
  fst (fst second) = put newCache message /\
  messages (snd (fst second)) =
    ([] ++ [mkRow "5" (sample.render "5"); mkRow "5" (sample.render "5")])%list.
Proof.
  intros message data first second.
  split; [reflexivity |]. split; [reflexivity |].
  apply (@reingestion_overwrites_and_appends sample.codec newCache (mkDB []) data data
           message message (sample.render "5") (sample.render "5")
           eq_refl eq_refl eq_refl eq_refl eq_refl).
Defined.

Lemma run_keeps_keys_witness :
  let p := mkProcess Serving (Subscribed None) (put newCache (withOrderUID "9" zeroMessage))
             (mkDB []) [] [] false in
  let schedule := [Deliver (sample.payload "9"); Persist false; Deliver "{}"] in
  exists p',
    @run sample.codec p schedule = Some p' /\
    is_Some (get (p_cache p) "9") /\
    is_Some (get (p_cache p') "9").
Proof.
  intros p schedule.
  destruct (@run sample.codec p schedule) as [p' |] eqn:Hrun;
    [| vm_compute in Hrun; discriminate].
  assert (Hsome : is_Some (get (p_cache p) "9")) by (vm_compute; eauto).
  exists p'. split; [reflexivity |]. split; [exact Hsome |].
  exact (@run_keeps_keys sample.codec schedule p p' "9" Hrun Hsome).
Defined.

Lemma exit_only_on_failed_connection_witness :
  let schedule := [ConnectToDB true; Go; ListenAndServe true; NatsConnect false] in
  exists p,
    @run sample.codec (start (mkDB [])) schedule = Some p /\
    exited p = true /\
    exists before a, schedule = (before ++ [a])%list /\ isFatal a.
Proof.
  intros schedule.
  destruct (@run sample.codec (start (mkDB [])) schedule) as [p |] eqn:Hrun;
    [| vm_compute in Hrun; discriminate].
  assert (Hexit : exited p = true).
  { pose proof Hrun as Hrun'. vm_compute in Hrun'. injection Hrun' as <-. reflexivity. }
  exists p. split; [reflexivity |]. split; [exact Hexit |].
  exact (@exit_only_on_failed_connection sample.codec (mkDB []) schedule p Hrun Hexit).
Defined.

Lemma table_append_only_witness :
  let db := mkDB [mkRow "1" "not json"] in
  let schedule :=
    [ConnectToDB true; Go; NatsConnect true; Restore true; Subscribe true;
     Deliver (sample.payload "2"); Persist true] in
  exists p',
    @run sample.codec (start db) schedule = Some p' /\
    exists added,
      messages (p_db p') = (messages (p_db (start db)) ++ added)%list /\
      Forall (@savedRow sample.codec) added.
Proof.
  intros db schedule.
  destruct (@run sample.codec (start db) schedule) as [p' |] eqn:Hrun;
    [| vm_compute in Hrun; discriminate].
  exists p'. split; [reflexivity |].
  exact (@table_append_only sample.codec schedule (start db) p' Hrun).
Defined.

Lemma no_record_before_recovery_witness :
  let db := mkDB [mkRow "1" (sample.payload "1")] in
  let schedule :=
    [ConnectToDB true; Go; ListenAndServe true; NatsConnect true;
     Serve (mkRequest [("id", "1")])] in
  exists p,
    @run sample.codec (start db) schedule = Some p /\
    (forall query_ok, ~ In (Restore query_ok) schedule) /\
    p_cache p = newCache /\ Forall clientError (p_responses p).
Proof.
  intros db schedule.
  destruct (@run sample.codec (start db) schedule) as [p |] eqn:Hrun;
    [| vm_compute in Hrun; discriminate].
  assert (Hnone : forall query_ok, ~ In (Restore query_ok) schedule).
  { intros q Hin. cbn in Hin.
    destruct Hin as [Hin | [Hin | [Hin | [Hin | [Hin | []]]]]]; discriminate. }
  exists p. split; [reflexivity |]. split; [exact Hnone |].
  exact (proj2 (@no_record_before_recovery sample.codec db schedule p Hrun Hnone)).
Defined.

Lemma recovery_runs_once_witness :
  let before := [ConnectToDB true; Go; NatsConnect true] in
  let after := [Subscribe true; Deliver "{}"] in
  is_Some (@run sample.codec (start (mkDB [])) (before ++ Restore true :: after)) /\
  ~ In (Restore false) before /\ ~ In (Restore false) after.
Proof.
  intros before after.
  destruct (@run sample.codec (start (mkDB [])) (before ++ Restore true :: after))
    as [p |] eqn:Hrun; [| vm_compute in Hrun; discriminate].
  split; [eauto |].
  exact (@recovery_runs_once sample.codec (mkDB []) before after true p Hrun false).
Defined.

Lemma reachable_keys_witness :
  let db := mkDB [mkRow "007" "{}"] in
  let restored := fst (fst (@restoreCacheFromDB sample.codec newCache db true)) in
  let cache := fst (fst (@onMessage sample.codec restored db (sample.payload "order-1") true)) in
  @reachable sample.codec cache /\
  get cache "7" = Some zeroMessage /\
  ("7" = OrderUID zeroMessage \/ canonical "7" = true).
Proof.
  intros db restored cache.
  assert (Hreach : @reachable sample.codec cache).
  { apply reachable_message, reachable_restore, reachable_new. }
  assert (Hget : get cache "7" = Some zeroMessage) by (vm_compute; reflexivity).
  split; [exact Hreach |]. split; [exact Hget |].
  exact (@reachable_keys sample.codec cache Hreach "7" zeroMessage Hget).
Defined.

Lemma malformed_message_is_dropped_witness :
  let p := mkProcess Serving (Subscribed None) newCache (mkDB []) [] [] false in
  let message := withOrderUID "4" zeroMessage in
  @unmarshal sample.codec "not json" = None /\
  @unmarshal sample.codec (sample.payload "4") = Some message /\
  exists p',
    @run sample.codec p [Deliver "not json"; Deliver (sample.payload "4")] = Some p' /\
    p_cache p' = put (p_cache p) message /\
    p_db p' = p_db p /\
    p_log p' = (p_log p ++ ["Failed to unmarshal message:"])%list /\
    subAt p' = Subscribed (Some message) /\
    exited p' = false.
Proof.
  intros p message. split; [reflexivity |]. split; [reflexivity |].
  apply (@malformed_message_is_dropped sample.codec p "not json" (sample.payload "4")
           message eq_refl eq_refl eq_refl eq_refl).
Defined.
